(** * turbomigrate: configuration resolution and selection engine

    A shallow embedding of the TypeScript sources of turbomigrate
    ([src/index.ts], [src/utils/parse-wrangler-config.ts],
    [src/utils/parse-drizzle-config.ts]) and the properties of its
    specification.

    Layout:
    - [JsString]: JavaScript strings as sequences of UTF-16 code units;
    - [JsRegExp]: the fragment of ECMAScript regular expressions used by the
      two [parseJsonc] routines, with a backtracking matcher and the global
      [String.prototype.replace];
    - [ParseWranglerConfig], [ParseDrizzleConfig]: the two parser modules;
    - [Index]: the top-level script as a program in a small monad that
      threads the file system and the trace of observable events, and that
      can stop by [process.exit] or by an uncaught exception;
    - the theorems. *)

From Stdlib Require Import List String Ascii ZArith NArith Lia Bool.
From Stdlib Require Import Sorting.Sorted Sorting.Permutation.
Import ListNotations.

Set Implicit Arguments.

(* ------------------------------------------------------------------ *)
(** * Exceptions *)

(** A thrown JavaScript value: an [Error] (or a [TypeError], which is an
    [Error] too) with its message, or a value that is not an [Error]. *)
Inductive Exn : Type :=
| JsError (message : string)
| JsTypeError (message : string)
| NonError.

(** [error instanceof Error ? error.message : "Unknown error"] *)
Definition messageOf (e : Exn) : string :=
  match e with
  | JsError m => m
  | JsTypeError m => m
  | NonError => "Unknown error"
  end.

(** The result of an expression that may throw (or of an awaited promise
    that may reject). *)
Inductive Thrown (A : Type) : Type :=
| Ok (a : A)
| Err (e : Exn).
Arguments Ok {A} a.
Arguments Err {A} e.

(* ------------------------------------------------------------------ *)
(** * Strings *)

Module JsString.

(** File contents are JavaScript strings: sequences of UTF-16 code units.
    The character classes of the regular expressions below ([.] and [\s])
    are defined on code units, so contents are kept at that level. *)
Definition char16 : Type := N.
Definition jsstring : Type := list char16.

(** An ASCII literal as a JavaScript string. *)
Definition js (s : string) : jsstring :=
  map N_of_ascii (list_ascii_of_string s).

(** The double quote, and a quoted literal. *)
Definition dquote : char16 := 34%N.
Definition quoted (s : string) : jsstring := dquote :: js s ++ [dquote].

(** File names, paths and messages are kept as [string]; the operations the
    script applies to them follow. *)

(** [s.split(sep)] for a one-character separator. *)
Fixpoint split (sep : ascii) (s : string) : list string :=
  match s with
  | EmptyString => [EmptyString]
  | String c s' =>
      if Ascii.eqb c sep then EmptyString :: split sep s'
      else match split sep s' with
           | hd :: tl => String c hd :: tl
           | [] => [String c EmptyString]
           end
  end.

(** [String.prototype.toLowerCase] lower-cases every cased letter of
    Unicode.  It is a built-in of the engine, and the parser modules and the
    script take it as a parameter.  On a string of ASCII characters it is the
    function below, which maps [A]-[Z] to [a]-[z] and keeps every other
    character; the hosts of the scenarios, whose paths are ASCII, use it. *)
Definition lowerAscii (c : ascii) : ascii :=
  let n := nat_of_ascii c in
  if (65 <=? n)%nat && (n <=? 90)%nat then ascii_of_nat (n + 32) else c.

Fixpoint toLowerCaseAscii (s : string) : string :=
  match s with
  | EmptyString => EmptyString
  | String c s' => String (lowerAscii c) (toLowerCaseAscii s')
  end.

(** [s.endsWith(suffix)] *)
Definition endsWith (s suffix : string) : bool :=
  (String.length suffix <=? String.length s)%nat
  && String.eqb
       (substring (String.length s - String.length suffix)
                  (String.length suffix) s)
       suffix.

(** [s.slice(0, n)] *)
Definition slice0 (n : nat) (s : string) : string := substring 0 n s.

(** [l.join(sep)] *)
Definition join (sep : string) (l : list string) : string :=
  String.concat sep l.

(** Truthiness of a string: the empty string is falsy. *)
Definition truthy (s : string) : bool := negb (String.eqb s "").

End JsString.
Import JsString.

(* ------------------------------------------------------------------ *)
(** * Regular expressions *)

Module JsRegExp.

Local Open Scope N_scope.

(** LineTerminator: LF, CR, U+2028, U+2029. *)
Definition isLineTerminator (c : char16) : bool :=
  (c =? 10) || (c =? 13) || (c =? 8232) || (c =? 8233).

(** [\s]: WhiteSpace and LineTerminator. *)
Definition isWhiteSpace (c : char16) : bool :=
  (c =? 9) || (c =? 10) || (c =? 11) || (c =? 12) || (c =? 13) || (c =? 32)
  || (c =? 160) || (c =? 5760) || ((8192 <=? c) && (c <=? 8202))
  || (c =? 8232) || (c =? 8233) || (c =? 8239) || (c =? 8287)
  || (c =? 12288) || (c =? 65279).

(** The patterns that occur in the sources: literal characters, [.],
    character classes, [$] under the [m] flag, concatenation, greedy and
    lazy [*], and one capture group. *)
Inductive re : Type :=
| Chr (c : char16)
| Dot
| Cls (p : char16 -> bool)
| EolM
| Seq (r1 r2 : re)
| Star (greedy : bool) (r : re)
| Grp (r : re).

(** Matcher state: the input still to read, the number of code units read
    since the start of the match, and the text of group 1. *)
Record MState : Type :=
  { rest : jsstring; consumed : nat; group1 : option jsstring }.

Definition step1 (p : char16 -> bool) (st : MState)
  (k : MState -> option MState) : option MState :=
  match rest st with
  | c :: tl =>
      if p c
      then k {| rest := tl; consumed := S (consumed st);
                group1 := group1 st |}
      else None
  | [] => None
  end.

(** The backtracking matcher, in continuation-passing style as in the
    ECMAScript specification.  An iteration of [*] that reads nothing is
    rejected, so at most [length (rest st)] iterations can succeed and the
    inner loop is bounded by that number. *)
Fixpoint matcher (r : re) (st : MState) (k : MState -> option MState)
  {struct r} : option MState :=
  match r with
  | Chr c => step1 (N.eqb c) st k
  | Dot => step1 (fun c => negb (isLineTerminator c)) st k
  | Cls p => step1 p st k
  | EolM =>
      match rest st with
      | [] => k st
      | c :: _ => if isLineTerminator c then k st else None
      end
  | Seq r1 r2 => matcher r1 st (fun st1 => matcher r2 st1 k)
  | Star greedy r' =>
      (fix loop (fuel : nat) (st0 : MState) {struct fuel} : option MState :=
         match fuel with
         | O => k st0
         | S fuel' =>
             let again (_ : unit) :=
               matcher r' st0 (fun st1 =>
                 if Nat.eqb (consumed st1) (consumed st0) then None
                 else loop fuel' st1) in
             if greedy
             then match again tt with Some x => Some x | None => k st0 end
             else match k st0 with Some x => Some x | None => again tt end
         end) (List.length (rest st)) st
  | Grp r' =>
      matcher r' st (fun st1 =>
        k {| rest := rest st1; consumed := consumed st1;
             group1 :=
               Some (firstn (consumed st1 - consumed st) (rest st)) |})
  end.

(** A match attempt at the head of [s]: the length of the match and the text
    of group 1.  None of the patterns looks behind the start of the match, so
    the text before [s] is not needed. *)
Definition exec (r : re) (s : jsstring) : option (nat * option jsstring) :=
  match matcher r {| rest := s; consumed := 0; group1 := None |} Some with
  | Some st => Some (consumed st, group1 st)
  | None => None
  end.

(** [s.replace(r, replacement)] for a pattern with the [g] flag: matches are
    searched from left to right, each search starting where the previous
    match ended (one further after an empty match).  [skip] counts the code
    units of the current match that are still to be dropped. *)
Fixpoint replaceFrom (r : re) (replacement : option jsstring -> jsstring)
  (skip : nat) (s : jsstring) {struct s} : jsstring :=
  match skip, s with
  | S n, _ :: tl => replaceFrom r replacement n tl
  | S _, [] => []
  | O, [] =>
      match exec r [] with
      | Some (_, g) => replacement g
      | None => []
      end
  | O, c :: tl =>
      match exec r s with
      | Some (O, g) => replacement g ++ c :: replaceFrom r replacement 0 tl
      | Some (S n, g) => replacement g ++ replaceFrom r replacement n tl
      | None => c :: replaceFrom r replacement 0 tl
      end
  end.

Definition replace (r : re) (replacement : option jsstring -> jsstring)
  (s : jsstring) : jsstring :=
  replaceFrom r replacement 0 s.

(** The replacement strings [""] and ["$1"]. *)
Definition withEmpty (_ : option jsstring) : jsstring := [].
Definition withGroup1 (g : option jsstring) : jsstring :=
  match g with Some t => t | None => [] end.

End JsRegExp.

(* ------------------------------------------------------------------ *)
(** * utils/parse-wrangler-config.ts *)

Module ParseWranglerConfig.
Import JsRegExp.

(** [interface D1Database] *)
Record D1Database : Type :=
  { binding : string;
    database_name : string;
    database_id : option string }.

(** An environment-scoped sub-document ([Record<string, any>]); the script
    reads its ["d1_databases"] entry as [D1Database[]]. *)
Record EnvConfig : Type :=
  { env_d1_databases : option (list D1Database) }.

(** [interface WranglerConfig].  [env] lists the entries of the object in
    the order of [Object.keys]. *)
Record WranglerConfig : Type :=
  { name : option string;
    main : option string;
    compatibility_date : option string;
    compatibility_flags : option (list string);
    env : option (list (string * EnvConfig));
    d1_databases : option (list D1Database) }.

Section Parsers.

(** [any]: the type of the documents the external parsers return. *)
Context {any : Type}.
Variable readFileSync : string -> Thrown jsstring.
Variable parseToml : jsstring -> Thrown any.
Variable JSON_parse : jsstring -> Thrown any.
(** [String.prototype.toLowerCase] *)
Variable toLowerCase : string -> string.

(** [/\/\/.*$/gm] *)
Definition singleLineComment : re :=
  Seq (Chr 47%N) (Seq (Chr 47%N) (Seq (Star true Dot) EolM)).

(** [/\/\*[\s\S]*?\*\//g] *)
Definition multiLineComment : re :=
  Seq (Chr 47%N) (Seq (Chr 42%N)
    (Seq (Star false (Cls (fun c => isWhiteSpace c || negb (isWhiteSpace c))))
         (Seq (Chr 42%N) (Chr 47%N)))).

(** [/,(\s*[}\]])/g] *)
Definition trailingComma : re :=
  Seq (Chr 44%N)
    (Grp (Seq (Star true (Cls isWhiteSpace))
              (Cls (fun c => (c =? 125)%N || (c =? 93)%N)))).

(** The value of [cleaned] when [parseJsonc] reaches [JSON.parse]. *)
Definition cleaned (content : jsstring) : jsstring :=
  let cleaned := replace singleLineComment withEmpty content in
  let cleaned := replace multiLineComment withEmpty cleaned in
  let cleaned := replace trailingComma withGroup1 cleaned in
  cleaned.

Definition parseJsonc (content : jsstring) : Thrown any :=
  JSON_parse (cleaned content).

(** [filePath.split(".").pop()?.toLowerCase()] *)
Definition extensionOf (filePath : string) : string :=
  toLowerCase (last (split "."%char filePath) ""%string).

Definition parseWranglerConfig (filePath : string) : Thrown any :=
  let body : Thrown any :=
    match readFileSync filePath with
    | Err e => Err e
    | Ok content =>
        let extension := extensionOf filePath in
        if String.eqb extension "toml" then parseToml content
        else if String.eqb extension "json" then JSON_parse content
        else if String.eqb extension "jsonc" then parseJsonc content
        else Err (JsError ("Unsupported file extension: " ++ extension))
    end in
  match body with
  | Ok v => Ok v
  | Err error =>
      Err (JsError ("Failed to parse wrangler config at " ++ filePath
                    ++ ": " ++ messageOf error))
  end.

(** [as WranglerConfig]: the view of a parsed document at the interface. *)
Variable asWranglerConfig : any -> WranglerConfig.

Definition parseWranglerConfigTyped (filePath : string)
  : Thrown WranglerConfig :=
  match parseWranglerConfig filePath with
  | Ok v => Ok (asWranglerConfig v)
  | Err e => Err e
  end.

End Parsers.

End ParseWranglerConfig.

(* ------------------------------------------------------------------ *)
(** * utils/parse-drizzle-config.ts *)

Module ParseDrizzleConfig.
Import JsRegExp.

(** [interface DrizzleConfig]: the script reads [out] only; the other fields
    belong to the migration tool. *)
Record DrizzleConfig : Type :=
  { out : option string }.

(** The namespace object of a dynamically imported module: its [default]
    export when that is present and truthy, and the module itself. *)
Record ModuleNamespace (any : Type) : Type :=
  { default : option any; whole : any }.

Section Parsers.

Context {any : Type}.
Variable readFileSync : string -> Thrown jsstring.
Variable parseToml : jsstring -> Thrown any.
Variable JSON_parse : jsstring -> Thrown any.
(** [String.prototype.toLowerCase] *)
Variable toLowerCase : string -> string.
Variable pathToFileURL_href : string -> string.
Variable import : string -> Thrown (ModuleNamespace any).

(** [/\/\/.*$/gm] *)
Definition singleLineComment : re :=
  Seq (Chr 47%N) (Seq (Chr 47%N) (Seq (Star true Dot) EolM)).

(** [/\/\*[\s\S]*?\*\//g] *)
Definition multiLineComment : re :=
  Seq (Chr 47%N) (Seq (Chr 42%N)
    (Seq (Star false (Cls (fun c => isWhiteSpace c || negb (isWhiteSpace c))))
         (Seq (Chr 42%N) (Chr 47%N)))).

(** [/,(\s*[}\]])/g] *)
Definition trailingComma : re :=
  Seq (Chr 44%N)
    (Grp (Seq (Star true (Cls isWhiteSpace))
              (Cls (fun c => (c =? 125)%N || (c =? 93)%N)))).

(** The value of [cleaned] when [parseJsonc] reaches [JSON.parse]. *)
Definition cleaned (content : jsstring) : jsstring :=
  let cleaned := replace singleLineComment withEmpty content in
  let cleaned := replace multiLineComment withEmpty cleaned in
  let cleaned := replace trailingComma withGroup1 cleaned in
  cleaned.

Definition parseJsonc (content : jsstring) : Thrown any :=
  JSON_parse (cleaned content).

Definition importModule (filePath : string) : Thrown any :=
  let fileUrl := pathToFileURL_href filePath in
  match import fileUrl with
  | Ok module =>
      Ok (match default module with Some d => d | None => whole module end)
  | Err error =>
      Err (JsError ("Failed to import module at " ++ filePath ++ ": "
                    ++ messageOf error))
  end.

(** [filePath.split(".").pop()?.toLowerCase()] *)
Definition extensionOf (filePath : string) : string :=
  toLowerCase (last (split "."%char filePath) ""%string).

Definition parseDrizzleConfig (filePath : string) : Thrown any :=
  let extension := extensionOf filePath in
  let body : Thrown any :=
    if String.eqb extension "ts" || String.eqb extension "js"
       || String.eqb extension "mts" || String.eqb extension "mjs"
    then importModule filePath
    else if String.eqb extension "toml" then
      match readFileSync filePath with
      | Ok tomlContent => parseToml tomlContent
      | Err e => Err e
      end
    else if String.eqb extension "json" then
      match readFileSync filePath with
      | Ok jsonContent => JSON_parse jsonContent
      | Err e => Err e
      end
    else if String.eqb extension "jsonc" then
      match readFileSync filePath with
      | Ok jsoncContent => parseJsonc jsoncContent
      | Err e => Err e
      end
    else Err (JsError ("Unsupported file extension: " ++ extension)) in
  match body with
  | Ok v => Ok v
  | Err error =>
      Err (JsError ("Failed to parse drizzle config at " ++ filePath
                    ++ ": " ++ messageOf error))
  end.

(** [as DrizzleConfig] *)
Variable asDrizzleConfig : any -> DrizzleConfig.

Definition parseDrizzleConfigTyped (filePath : string)
  : Thrown DrizzleConfig :=
  match parseDrizzleConfig filePath with
  | Ok v => Ok (asDrizzleConfig v)
  | Err e => Err e
  end.

End Parsers.

End ParseDrizzleConfig.

(* ------------------------------------------------------------------ *)
(** * index.ts

    The script is the second file of [src/unnamed/part_000], after
    [utils/parse-drizzle-config.ts]; line numbers are those of
    [part_000]. *)

Module Index.
Import ParseWranglerConfig ParseDrizzleConfig.

(** ** The world outside the script *)

(** [program.opts()]: commander leaves a boolean flag that was not passed
    [undefined] and sets a passed one to [true]; [false] stands for
    [undefined] here. *)
Record Options : Type :=
  { local : bool; remote : bool; dir : option string }.

(** An entry of the [options] of a select prompt. *)
Record Choice : Type := { label : string; value : string }.

(** The file system as [fs] shows it.  [statSync] gives
    [stats.mtime.getTime()]. *)
Record FileSystem : Type :=
  { existsSync : string -> bool;
    readFileSync : string -> Thrown jsstring;
    readdirSync : string -> Thrown (list string);
    statSync : string -> Thrown Z }.

(** The collaborators of the script: the process, [path], the external
    parsers and the module loader, [picocolors], [date-fns], the prompt of
    [consola], [execa] and the built-in [String.prototype.toLowerCase].  A
    prompt resolves to the value of the selected option (a string, or a
    boolean for a confirmation), or to [undefined] ([None]), or rejects;
    [execa] resolves, leaving the file system as the command made it, or
    rejects.

    [asWranglerConfig] and [asDrizzleConfig] read a parsed document at the
    interface it is cast to.  The casts of the source check nothing: the
    records describe the documents that have the shape the interfaces
    declare, and a document of another shape ([null], a binding list that
    is not an array, an identifier that is not a string) is outside the
    model, together with the [TypeError]s the script throws on it. *)
Record Host : Type :=
  { any : Type;
    asWranglerConfig : any -> WranglerConfig;
    asDrizzleConfig : any -> DrizzleConfig;
    process_cwd : string;
    stdin_isTTY : bool;
    stdout_isTTY : bool;
    path_resolve : list string -> string;
    path_join : string -> string -> string;
    pathToFileURL_href : string -> string;
    toLowerCase : string -> string;
    parseToml : jsstring -> Thrown any;
    JSON_parse : jsstring -> Thrown any;
    import : string -> Thrown (ModuleNamespace any);
    pc_yellow : string -> string;
    pc_magenta : string -> string;
    pc_gray : string -> string;
    pc_blue : string -> string;
    pc_green : string -> string;
    pc_red : string -> string;
    format : Z -> string -> string;
    prompt_select :
      string -> list Choice -> option string -> Thrown (option string);
    prompt_confirm : string -> bool -> Thrown (option bool);
    execa :
      string -> list string -> string -> option string -> FileSystem ->
      Thrown FileSystem }.

(** What an observer of a run sees, in order. *)
Inductive Event : Type :=
| ConsoleError (msg : string)
| ConsoleWarn (msg : string)
| ConsoleLog (msg : string)
| ConsolaError (msg : string)
| ConsolaWarn (msg : string)
| PromptSelect (message : string) (options : list Choice)
    (initial : option string)
| PromptConfirm (message : string) (initial : bool)
| Execa (file : string) (args : list string) (cwd : string)
    (stdio : option string)
| SpinnerStart (text : string)
| SpinnerStop
| SpinnerSuccess (text : string).

(** ** The monad of the script *)

Record World : Type := { fs : FileSystem; trace : list Event }.

(** A computation returns, or ends the process with [process.exit(code)],
    or throws an exception that nothing catches. *)
Inductive Outcome (A : Type) : Type :=
| Return (a : A)
| Exited (code : Z)
| Uncaught (e : Exn).
Arguments Return {A} a.
Arguments Exited {A} code.
Arguments Uncaught {A} e.

Definition M (A : Type) : Type := World -> Outcome A * World.

Definition ret {A : Type} (a : A) : M A := fun w => (Return a, w).

Definition bind {A B : Type} (c : M A) (k : A -> M B) : M B :=
  fun w =>
    match c w with
    | (Return a, w') => k a w'
    | (Exited code, w') => (Exited code, w')
    | (Uncaught e, w') => (Uncaught e, w')
    end.

Declare Scope script_scope.
Delimit Scope script_scope with script.
Notation "x <- c ;; k" := (bind c (fun x => k))
  (at level 61, c at next level, right associativity) : script_scope.
Notation "c ;; k" := (bind c (fun _ => k))
  (at level 61, right associativity) : script_scope.
Local Open Scope script_scope.
Local Open Scope string_scope.

Definition emit (e : Event) : M unit :=
  fun w => (Return tt, {| fs := fs w; trace := trace w ++ [e] |}).

Definition process_exit {A : Type} (code : Z) : M A :=
  fun w => (Exited code, w).

Definition throw {A : Type} (e : Exn) : M A :=
  fun w => (Uncaught e, w).

Definition getFs : M FileSystem := fun w => (Return (fs w), w).

Definition setFs (f : FileSystem) : M unit :=
  fun w => (Return tt, {| fs := f; trace := trace w |}).

(** Modelled from the spec: [tryCatch] of [./utils/try-catch.ts], which is
    not among the sources.  The specification describes a prompt as a
    blocking call that returns the chosen value or a cancellation signal;
    [tryCatch] turns the awaited promise into a record with the value in
    [data] and the rejection in [error]. *)
Record TryResult (A : Type) : Type :=
  { data : option A; error : option Exn }.

Definition tryCatch {A : Type} (p : Thrown (option A)) : TryResult A :=
  match p with
  | Ok v => {| data := v; error := None |}
  | Err e => {| data := None; error := Some e |}
  end.

(** [consola.prompt(message, { type: "select", options, initial })] *)
Definition promptSelect (h : Host) (message : string)
  (options : list Choice) (initial : option string)
  : M (TryResult string) :=
  emit (PromptSelect message options initial) ;;
  ret (tryCatch (prompt_select h message options initial)).

(** [consola.prompt(message, { type: "confirm", initial })] *)
Definition promptConfirm (h : Host) (message : string) (initial : bool)
  : M (TryResult bool) :=
  emit (PromptConfirm message initial) ;;
  ret (tryCatch (prompt_confirm h message initial)).

(** [await execa(file, args, { cwd, stdio })] under a [try]. *)
Definition execaM (h : Host) (file : string) (args : list string)
  (cwd : string) (stdio : option string) : M (Thrown unit) :=
  emit (Execa file args cwd stdio) ;;
  f <- getFs ;;
  match execa h file args cwd stdio f with
  | Ok f' => setFs f' ;; ret (Ok tt)
  | Err e => ret (Err e)
  end.

(** [!data || error] for the result of a select prompt. *)
Definition cancelled (r : TryResult string) : bool :=
  negb (match data r with Some s => truthy s | None => false end)
  || (match error r with Some _ => true | None => false end).

(** Truthiness of a [string | undefined]. *)
Definition truthyOpt (s : option string) : bool :=
  match s with Some s => truthy s | None => false end.

(** ** Built-ins *)

(** [Array.prototype.sort(cmp)].  ECMAScript requires the sort to be stable;
    with a consistent comparator every conforming implementation returns
    the list computed here, by stable insertion. *)
Fixpoint insertSorted {A : Type} (cmp : A -> A -> Z) (x : A) (l : list A)
  : list A :=
  match l with
  | [] => [x]
  | y :: l' =>
      if (cmp x y <=? 0)%Z then x :: l else y :: insertSorted cmp x l'
  end.

Definition Array_sort {A : Type} (cmp : A -> A -> Z) (l : list A) : list A :=
  fold_right (insertSorted cmp) [] l.

(** [l.map((x, index) => f x index)] *)
Fixpoint mapWithIndexFrom {A B : Type} (f : A -> nat -> B) (index : nat)
  (l : list A) : list B :=
  match l with
  | [] => []
  | x :: l' => f x index :: mapWithIndexFrom f (S index) l'
  end.

Definition mapWithIndex {A B : Type} (f : A -> nat -> B) (l : list A)
  : list B :=
  mapWithIndexFrom f 0 l.

(** [l.map(f)] for an [f] that may throw. *)
Fixpoint mapThrown {A B : Type} (f : A -> Thrown B) (l : list A)
  : Thrown (list B) :=
  match l with
  | [] => Ok []
  | x :: l' =>
      match f x with
      | Err e => Err e
      | Ok y =>
          match mapThrown f l' with
          | Err e => Err e
          | Ok ys => Ok (y :: ys)
          end
      end
  end.

(** ** The script *)

(** Lines 162-173: resolve the working directory. *)
Definition resolveWorkdir (h : Host) (opts : Options) : M string :=
  match dir opts with
  | Some d =>
      if truthy d then
        let resolvedWorkdir := path_resolve h [process_cwd h; d] in
        f <- getFs ;;
        if negb (existsSync f resolvedWorkdir) then
          emit (ConsoleError
                  ("Error: Working directory '" ++ d ++ "' does not exist")) ;;
          process_exit 1
        else ret resolvedWorkdir
      else ret (path_resolve h [process_cwd h])
  | None => ret (path_resolve h [process_cwd h])
  end.

(** Lines 175-197: ask for the mode when no flag was passed.  The answer is
    bound to a [data] that is local to the block. *)
Definition promptMode (h : Host) (opts : Options) : M unit :=
  if negb (local opts) && negb (remote opts) then
    r <- promptSelect h (pc_yellow h "Want to migrate locally or remotely?")
           [ {| label := "local"; value := "local" |};
             {| label := "remote"; value := "remote" |} ]
           (Some "local") ;;
    if cancelled r then
      emit (ConsolaError "Migration cancelled.") ;; process_exit 1
    else ret tt
  else ret tt.

Definition wranglerConfigs : list string :=
  ["wrangler.toml"; "wrangler.json"; "wrangler.jsonc"].

Definition drizzleConfigs : list string :=
  ["drizzle.config.ts"; "drizzle.config.js"].

(** The candidates that exist, in the order of the candidate list. *)
Definition foundConfigs (h : Host) (f : FileSystem) (candidates : list string)
  (resolvedWorkdir : string) : list string :=
  filter (fun config => existsSync f (path_join h resolvedWorkdir config))
         candidates.

(** Lines 199-220 and 232-256: the script locates the wrangler and the drizzle
    configuration by the same steps, on [wranglerConfigs] and on
    [drizzleConfigs]; [kind] is the word that differs in the messages. *)
Definition locateConfig (h : Host) (kind : string) (candidates : list string)
  (resolvedWorkdir : string) : M string :=
  f <- getFs ;;
  let found := foundConfigs h f candidates resolvedWorkdir in
  (if Nat.eqb (List.length found) 0 then
     emit (ConsoleError
             ("Error: No " ++ kind ++ " configuration file found in '"
              ++ resolvedWorkdir ++ "'")) ;;
     emit (ConsoleError ("Expected one of: " ++ join ", " candidates)) ;;
     process_exit 1
   else ret tt) ;;
  (if Nat.ltb 1 (List.length found) then
     emit (ConsoleWarn
             ("Warning: Multiple " ++ kind ++ " config files found: "
              ++ join ", " found)) ;;
     emit (ConsoleLog ("Using: " ++ hd "" found))
   else ret tt) ;;
  ret (path_join h resolvedWorkdir (hd "" found)).

(** Lines 221-230. *)
Definition loadWranglerConfig (h : Host) (configPath : string)
  : M WranglerConfig :=
  f <- getFs ;;
  match parseWranglerConfigTyped (readFileSync f) (parseToml h)
          (JSON_parse h) (toLowerCase h) (asWranglerConfig h) configPath with
  | Ok wranglerConfig => ret wranglerConfig
  | Err error =>
      emit (ConsoleError
              ("Failed to parse wrangler config: " ++ messageOf error)) ;;
      process_exit 1
  end.

(** Lines 258-267. *)
Definition loadDrizzleConfig (h : Host) (drizzleConfigPath : string)
  : M DrizzleConfig :=
  f <- getFs ;;
  match parseDrizzleConfigTyped (readFileSync f) (parseToml h)
          (JSON_parse h) (toLowerCase h) (pathToFileURL_href h) (import h)
          (asDrizzleConfig h) drizzleConfigPath with
  | Ok drizzleConfig => ret drizzleConfig
  | Err error =>
      emit (ConsoleError
              ("Failed to parse drizzle config: " ++ messageOf error)) ;;
      process_exit 1
  end.

(** [Object.keys(wranglerConfig.env ?? {})] *)
Definition environmentsOf (wranglerConfig : WranglerConfig) : list string :=
  map fst (match env wranglerConfig with Some e => e | None => [] end).

(** Lines 269-295: select the environment. *)
Definition selectEnvironment (h : Host) (wranglerConfig : WranglerConfig)
  : M (option string) :=
  let environments := environmentsOf wranglerConfig in
  if Nat.eqb (List.length environments) 1 then
    ret (Some (hd "" environments))
  else
    let envChoices :=
      map (fun key => {| label := key; value := key |}) environments in
    r <- promptSelect h (pc_yellow h "Select an environment:") envChoices
           (hd_error environments) ;;
    if cancelled r then
      emit (ConsolaError "Migration cancelled.") ;; process_exit 1
    else ret (data r).

(** [env[key]] on the entries of the object. *)
Definition lookupEnv (key : string) (e : list (string * EnvConfig))
  : option EnvConfig :=
  option_map snd (find (fun kv => String.eqb (fst kv) key) e).

(** Lines 298-303: the bindings of the chosen scope; [None] is [undefined]. *)
Definition databasesOf (wranglerConfig : WranglerConfig)
  (selectedEnvironment : option string) : option (list D1Database) :=
  if truthyOpt selectedEnvironment then
    match env wranglerConfig with
    | Some e =>
        match lookupEnv (match selectedEnvironment with
                         | Some s => s
                         | None => ""
                         end) e with
        | Some scope => env_d1_databases scope
        | None => None
        end
    | None => None
    end
  else d1_databases wranglerConfig.

Definition dbChoices (databases : list D1Database) : list Choice :=
  map (fun db =>
         {| label :=
              database_name db ++ " - "
              ++ match database_id db with
                 | Some id => slice0 6 id
                 | None => "undefined"
                 end;
            value := match database_id db with Some id => id | None => "" end
         |})
      databases.

(** [db.database_id === data] *)
Definition idIs (chosen : string) (db : D1Database) : bool :=
  match database_id db with
  | Some id => String.eqb id chosen
  | None => false
  end.

(** Lines 305-331: select the database.  Reading [length] of an [undefined]
    [databases] throws a [TypeError]. *)
Definition selectDatabase (h : Host) (databases : option (list D1Database))
  : M (option D1Database) :=
  match databases with
  | None =>
      throw (JsTypeError
               "undefined is not an object (evaluating 'databases.length')")
  | Some databases =>
      (if Nat.eqb (List.length databases) 0 then
         emit (ConsoleError "No cloudflare d1 databases found/configured.") ;;
         process_exit 1
       else ret tt) ;;
      if Nat.eqb (List.length databases) 1 then ret (nth_error databases 0)
      else
        r <- promptSelect h (pc_yellow h "Select a database to migrate to:")
               (dbChoices databases) (Some "local") ;;
        if cancelled r then
          emit (ConsolaError "Migration cancelled.") ;; process_exit 1
        else
          ret (find (idIs (match data r with Some s => s | None => "" end))
                    databases)
  end.

(** [join(resolvedWorkdir, drizzleConfig.out ?? "drizzle")] *)
Definition migrationsFolderOf (h : Host) (resolvedWorkdir : string)
  (drizzleConfig : DrizzleConfig) : string :=
  path_join h resolvedWorkdir
    (match out drizzleConfig with Some o => o | None => "drizzle" end).

(** Lines 352-375: run [drizzle-kit generate].  The spinner of this block is
    created and never started, so [spinner.isSpinning] is false in the
    [catch]. *)
Definition createMigration (h : Host) (resolvedWorkdir : string) : M unit :=
  let isInteractive := stdin_isTTY h && stdout_isTTY h in
  (if isInteractive then
     emit SpinnerStop ;;
     emit (ConsoleLog (pc_blue h "Running drizzle-kit generate..."))
   else ret tt) ;;
  r <- execaM h "bunx" ["drizzle-kit"; "generate"] resolvedWorkdir
         (Some (if isInteractive then "inherit" else "pipe")) ;;
  match r with
  | Ok _ =>
      if isInteractive then
        emit (ConsoleLog (pc_green h "✓ New migration created"))
      else emit (SpinnerSuccess "New migration created")
  | Err _ =>
      emit (ConsoleError (pc_red h "✗ Failed to create migration")) ;;
      emit (ConsolaError "Migration cancelled.") ;;
      process_exit 1
  end.

(** Lines 333-386: offer to create a migration, then require the folder. *)
Definition offerNewMigration (h : Host) (resolvedWorkdir : string)
  (drizzleConfig : DrizzleConfig) : M unit :=
  f <- getFs ;;
  let foundDrizzleMigrationsFolder :=
    existsSync f (migrationsFolderOf h resolvedWorkdir drizzleConfig) in
  r <- promptConfirm h
         ("Want to create a new migration?"
          ++ (if negb foundDrizzleMigrationsFolder
              then " (Currently we can't locate any migrations)"
              else ""))
         false ;;
  match error r with
  | Some _ => emit (ConsolaError "Migration cancelled.") ;; process_exit 1
  | None =>
      (match data r with
       | Some true => createMigration h resolvedWorkdir
       | _ => ret tt
       end) ;;
      f <- getFs ;;
      if negb (existsSync f (migrationsFolderOf h resolvedWorkdir
                               drizzleConfig)) then
        emit (ConsolaError
                "Migration cancelled: Was not able to locate migrations folder") ;;
        process_exit 1
      else ret tt
  end.

(** An entry of [sqlFilesWithStats]. *)
Record MigrationFile : Type :=
  { file_name : string; path : string; mtime : Z }.

Definition withStats (h : Host) (f : FileSystem) (migrationsFolder : string)
  (file : string) : Thrown MigrationFile :=
  let filePath := path_join h migrationsFolder file in
  match statSync f filePath with
  | Ok t => Ok {| file_name := file; path := filePath; mtime := t |}
  | Err e => Err e
  end.

(** [.sort((a, b) => b.mtime.getTime() - a.mtime.getTime())] *)
Definition sortByMtime (files : list MigrationFile) : list MigrationFile :=
  Array_sort (fun a b => (mtime b - mtime a)%Z) files.

(** The label of an entry: the flag, the name and the formatted date. *)
Definition migrationLabel (h : Host) (file : MigrationFile) (index : nat)
  : string :=
  (if Nat.eqb index 0 then pc_magenta h "NEWEST" else "")
  ++ " " ++ file_name file ++ "  "
  ++ pc_gray h (format h (mtime file) "HH:mm yyyy-MM-dd").

Definition migrationChoices (h : Host) (sqlFilesWithStats : list MigrationFile)
  : list Choice :=
  mapWithIndex
    (fun file index =>
       {| label := migrationLabel h file index; value := path file |})
    sqlFilesWithStats.

(** Lines 388-431: list the migrations and select one. *)
Definition selectMigration (h : Host) (resolvedWorkdir : string)
  (drizzleConfig : DrizzleConfig) : M string :=
  let migrationsFolder := migrationsFolderOf h resolvedWorkdir drizzleConfig in
  f <- getFs ;;
  match readdirSync f migrationsFolder with
  | Err e => throw e
  | Ok allFiles =>
      let sqlFiles := filter (fun file => endsWith file ".sql") allFiles in
      if Nat.eqb (List.length sqlFiles) 0 then
        emit (ConsolaWarn
                "No SQL migration files found in the migrations folder.") ;;
        ret ""
      else
        match mapThrown (withStats h f migrationsFolder) sqlFiles with
        | Err e => throw e
        | Ok stats =>
            let sqlFilesWithStats := sortByMtime stats in
            emit (ConsoleLog "Found SQL migration files (sorted by date):") ;;
            r <- promptSelect h (pc_yellow h "Select a migration:")
                   (migrationChoices h sqlFilesWithStats)
                   (option_map path (hd_error sqlFilesWithStats)) ;;
            if cancelled r then
              emit (ConsolaError "Migration cancelled.") ;; process_exit 1
            else ret (match data r with Some s => s | None => "" end)
        end
  end.

(** Lines 436-446: the arguments handed to [bunx]. *)
Definition migrationParams (opts : Options)
  (selectedDatabase : option D1Database) (selectedEnvironment : option string)
  (selectedMigration : string) : list string :=
  filter (fun prop => negb (String.eqb prop ""))
    (["wrangler"; "d1"; "execute";
      match selectedDatabase with
      | Some db => database_name db
      | None => ""
      end;
      if local opts then "--local" else "";
      if remote opts then "--remote" else ""]
     ++ (if truthyOpt selectedEnvironment
         then ["--env";
               match selectedEnvironment with Some s => s | None => "" end]
         else [])
     ++ ["--file"; selectedMigration]).

(** Lines 433-455: execute the migration. *)
Definition executeMigration (h : Host) (opts : Options)
  (resolvedWorkdir : string) (selectedDatabase : option D1Database)
  (selectedEnvironment : option string) (selectedMigration : string)
  : M unit :=
  emit (SpinnerStart "Starting migration") ;;
  r <- execaM h "bunx"
         (migrationParams opts selectedDatabase selectedEnvironment
            selectedMigration)
         resolvedWorkdir None ;;
  match r with
  | Ok _ => emit (SpinnerSuccess "Successfully migrated!")
  | Err _ => emit (ConsolaError "Migration cancelled: ") ;; process_exit 1
  end.

(** The whole script, top to bottom. *)
Definition script (h : Host) (opts : Options) : M unit :=
  resolvedWorkdir <- resolveWorkdir h opts ;;
  promptMode h opts ;;
  configPath <- locateConfig h "wrangler" wranglerConfigs resolvedWorkdir ;;
  wranglerConfig <- loadWranglerConfig h configPath ;;
  drizzleConfigPath <-
    locateConfig h "drizzle" drizzleConfigs resolvedWorkdir ;;
  drizzleConfig <- loadDrizzleConfig h drizzleConfigPath ;;
  selectedEnvironment <- selectEnvironment h wranglerConfig ;;
  selectedDatabase <-
    selectDatabase h (databasesOf wranglerConfig selectedEnvironment) ;;
  offerNewMigration h resolvedWorkdir drizzleConfig ;;
  selectedMigration <- selectMigration h resolvedWorkdir drizzleConfig ;;
  executeMigration h opts resolvedWorkdir selectedDatabase
    selectedEnvironment selectedMigration.

(** A run from an initial file system: the outcome and the trace. *)
Definition run (h : Host) (opts : Options) (f : FileSystem)
  : Outcome unit * list Event :=
  let (o, w) := script h opts {| fs := f; trace := [] |} in (o, trace w).

(** The exit status of the process. *)
Definition exitStatus (o : Outcome unit) : Z :=
  match o with
  | Return _ => 0
  | Exited code => code
  | Uncaught _ => 1
  end.

End Index.

(* ------------------------------------------------------------------ *)
(** * Observations on traces *)

Module Observe.
Import Index.
Local Open Scope string_scope.

Definition isPrompt (e : Event) : bool :=
  match e with
  | PromptSelect _ _ _ => true
  | PromptConfirm _ _ => true
  | _ => false
  end.

(** The prompts of a trace, in order. *)
Definition prompts (t : list Event) : list Event := filter isPrompt t.

(** An invocation of the external execute capability:
    [bunx wrangler d1 execute ...]. *)
Definition isExecute (e : Event) : bool :=
  match e with
  | Execa file (a :: b :: c :: _) _ _ =>
      String.eqb file "bunx" && String.eqb a "wrangler" && String.eqb b "d1"
      && String.eqb c "execute"
  | _ => false
  end.

Definition executeInvocations (t : list Event) : list Event :=
  filter isExecute t.

(** The arguments of the execute invocations of a trace. *)
Definition executeArgs (t : list Event) : list (list string) :=
  flat_map (fun e =>
              match e with
              | Execa _ args _ _ => if isExecute e then [args] else []
              | _ => []
              end) t.

Definition mem (s : string) (l : list string) : bool :=
  existsb (String.eqb s) l.

(** The trace of a world extended by some events. *)
Definition after (w : World) (events : list Event) : World :=
  {| fs := fs w; trace := trace w ++ events |}.

(** Artifacts with a later timestamp come first. *)
Definition newestFirst (l : list MigrationFile) : Prop :=
  forall i j a b,
    nth_error l i = Some a -> nth_error l j = Some b ->
    (mtime a > mtime b)%Z -> i < j.

(** Artifacts with the same timestamp keep the order they had in [l]. *)
Definition keepsOrderOfEqual (l sorted : list MigrationFile) : Prop :=
  forall t : Z,
    filter (fun f => (mtime f =? t)%Z) sorted
    = filter (fun f => (mtime f =? t)%Z) l.

(** The comparator of the sort, and the order it produces: [a] may stand
    before [b] when [b] is not later than [a]. *)
Definition byMtime (a b : MigrationFile) : Z := (mtime b - mtime a)%Z.
Definition notOlder (a b : MigrationFile) : Prop := (mtime b <= mtime a)%Z.

(** The entry of the migration list that carries the flag, and an entry
    without it. *)
Definition flaggedChoice (h : Host) (file : MigrationFile) : Choice :=
  {| label :=
       pc_magenta h "NEWEST" ++ " " ++ file_name file ++ "  "
       ++ pc_gray h (format h (mtime file) "HH:mm yyyy-MM-dd");
     value := path file |}.

Definition plainChoice (h : Host) (file : MigrationFile) : Choice :=
  {| label :=
       " " ++ file_name file ++ "  "
       ++ pc_gray h (format h (mtime file) "HH:mm yyyy-MM-dd");
     value := path file |}.

(** No argument list carries [--local] or [--remote]. *)
Definition withoutModeFlag (argss : list (list string)) : bool :=
  forallb (fun args => negb (mem "--local" args) && negb (mem "--remote" args))
          argss.

End Observe.

(* ------------------------------------------------------------------ *)
(** * Concrete projects *)

Module Scenario.
Import ParseWranglerConfig ParseDrizzleConfig Index Observe.
Local Open Scope string_scope.

(** The documents of the external parsers in the examples. *)
Inductive Doc : Type :=
| WranglerDoc (c : WranglerConfig)
| DrizzleDoc (c : DrizzleConfig).

Definition emptyWrangler : WranglerConfig :=
  {| name := None; main := None; compatibility_date := None;
     compatibility_flags := None; env := None; d1_databases := None |}.

Definition withEnv (e : list (string * EnvConfig)) : WranglerConfig :=
  {| name := None; main := None; compatibility_date := None;
     compatibility_flags := None; env := Some e; d1_databases := None |}.

Definition topLevelOnly (dbs : list D1Database) : WranglerConfig :=
  {| name := None; main := None; compatibility_date := None;
     compatibility_flags := None; env := None; d1_databases := Some dbs |}.

Definition appDb : D1Database :=
  {| binding := "DB"; database_name := "app"; database_id := Some "abc123" |}.

(** One environment ["prod"] with the one binding [appDb]. *)
Definition prodApp : WranglerConfig :=
  withEnv [("prod", {| env_d1_databases := Some [appDb] |})].

(** One environment ["prod"] without any [d1_databases] entry. *)
Definition prodWithoutBindings : WranglerConfig :=
  withEnv [("prod", {| env_d1_databases := None |})].

(** The project directory [/work/proj]: [wrangler.toml],
    [drizzle.config.ts] and the folder [drizzle] with the listed entries and
    their times of last modification. *)
Definition projectFs (migrations : list (string * Z)) : FileSystem :=
  {| existsSync := fun p =>
       mem p ["/work/proj"; "/work/proj/wrangler.toml";
              "/work/proj/drizzle.config.ts"; "/work/proj/drizzle"]
       || mem p (map (fun entry => "/work/proj/drizzle/" ++ fst entry)
                     migrations);
     readFileSync := fun p =>
       if String.eqb p "/work/proj/wrangler.toml" then Ok (js "# wrangler")
       else Err (JsError "ENOENT");
     readdirSync := fun p =>
       if String.eqb p "/work/proj/drizzle" then Ok (map fst migrations)
       else Err (JsError "ENOENT");
     statSync := fun p =>
       match find (fun entry =>
                     String.eqb p ("/work/proj/drizzle/" ++ fst entry))
                  migrations with
       | Some entry => Ok (snd entry)
       | None => Err (JsError "ENOENT")
       end |}.

(** The migrations folder with the one file 0000_init.sql. *)
Definition initOnly : list (string * Z) := [("0000_init.sql", 1000%Z)].

(** A host started in [/work] whose [wrangler.toml] parses to [config] and
    whose [drizzle.config.ts] exports [out: "drizzle"] by default; prompts
    are answered by [answerSelect] and [answerConfirm]; external commands
    succeed and leave the file system as it is. *)
Definition projectHost (config : WranglerConfig)
  (answerSelect :
     string -> list Choice -> option string -> Thrown (option string))
  (answerConfirm : string -> bool -> Thrown (option bool)) : Host :=
  {| any := Doc;
     asWranglerConfig := fun d =>
       match d with WranglerDoc c => c | DrizzleDoc _ => emptyWrangler end;
     asDrizzleConfig := fun d =>
       match d with DrizzleDoc c => c | WranglerDoc _ => {| out := None |} end;
     process_cwd := "/work";
     stdin_isTTY := true;
     stdout_isTTY := true;
     path_resolve := fun segments =>
       match segments with
       | [c; d] => if String.eqb d "./proj" then c ++ "/proj" else c ++ "/" ++ d
       | c :: _ => c
       | [] => ""
       end;
     path_join := fun a b => a ++ "/" ++ b;
     pathToFileURL_href := fun p => "file://" ++ p;
     toLowerCase := toLowerCaseAscii;
     parseToml := fun _ => Ok (WranglerDoc config);
     JSON_parse := fun _ => Err (JsError "Unexpected token");
     import := fun url =>
       if String.eqb url "file:///work/proj/drizzle.config.ts"
       then Ok {| default := Some (DrizzleDoc {| out := Some "drizzle" |});
                  whole := DrizzleDoc {| out := None |} |}
       else Err (JsError "Cannot find module");
     pc_yellow := fun s => s;
     pc_magenta := fun s => s;
     pc_gray := fun s => s;
     pc_blue := fun s => s;
     pc_green := fun s => s;
     pc_red := fun s => s;
     format := fun _ _ => "00:00 1970-01-01";
     prompt_select := answerSelect;
     prompt_confirm := answerConfirm;
     execa := fun _ _ _ _ f => Ok f |}.

(** [--remote --dir ./proj] *)
Definition remoteInProj : Options :=
  {| local := false; remote := true; dir := Some "./proj" |}.

(** [--dir ./proj], neither [--local] nor [--remote]. *)
Definition noModeInProj : Options :=
  {| local := false; remote := false; dir := Some "./proj" |}.

(** A user who takes the highlighted entry of every list, except that the
    mode prompt is answered by [mode]. *)
Definition takeInitialWithMode (mode : string)
  (message : string) (options : list Choice) (initial : option string)
  : Thrown (option string) :=
  if String.eqb message "Want to migrate locally or remotely?"
  then Ok (Some mode) else Ok initial.

(** A user who selects the entry at position [n] of every list. *)
Definition takePosition (n : nat)
  (message : string) (options : list Choice) (initial : option string)
  : Thrown (option string) :=
  Ok (option_map value (nth_error options n)).

(** A user who keeps the default of a confirmation. *)
Definition keepDefault (message : string) (initial : bool)
  : Thrown (option bool) :=
  Ok (Some initial).

(** Two bindings, the first without identifier. *)
Definition unnamedDb : D1Database :=
  {| binding := "DB1"; database_name := "one"; database_id := None |}.

Definition secondDb : D1Database :=
  {| binding := "DB2"; database_name := "two"; database_id := Some "id2" |}.

Definition emptyWorld (f : FileSystem) : World := {| fs := f; trace := [] |}.

(** The plain JSON text of an object with the one key u, whose value is the
    string a//b, and the first eight code units of that text (up to and
    including the a). *)
Definition urlLikeJson : jsstring :=
  (js "{" ++ quoted "u" ++ js ":" ++ quoted "a//b" ++ js "}")%list.

Definition urlLikeJsonCut : jsstring :=
  (js "{" ++ quoted "u" ++ js ":" ++ [dquote] ++ js "a")%list.

(** The plain JSON text of an object with the keys a and b whose values are
    the strings /* and */, and the text of the object with the key a and
    the empty string as value. *)
Definition blockLikeJson : jsstring :=
  (js "{" ++ quoted "a" ++ js ":" ++ quoted "/*" ++ js "," ++ quoted "b"
   ++ js ":" ++ quoted "*/" ++ js "}")%list.

Definition blockLikeJsonCut : jsstring :=
  (js "{" ++ quoted "a" ++ js ":" ++ quoted "" ++ js "}")%list.

(** A JSONC text with a line comment, a block comment over two lines and
    two trailing commas, and the plain JSON text that remains. *)
Definition newline : jsstring := [10%N].

Definition commentedJsonc : jsstring :=
  (js "{ // deployment" ++ newline
   ++ js "  " ++ quoted "name" ++ js ": " ++ quoted "app" ++ js ", /* the"
   ++ newline
   ++ js "  name */ " ++ quoted "flags" ++ js ": [1, 2, ]," ++ newline
   ++ js "}")%list.

Definition commentedJsoncStripped : jsstring :=
  (js "{ " ++ newline
   ++ js "  " ++ quoted "name" ++ js ": " ++ quoted "app" ++ js ",  "
   ++ quoted "flags" ++ js ": [1, 2 ]" ++ newline
   ++ js "}")%list.

(** A migrations folder with three migrations, two of them of the same age,
    and one entry that is not a migration. *)
Definition mixedFolder : list (string * Z) :=
  [("0000_a.sql", 10%Z); ("0001_b.sql", 30%Z); ("0002_c.sql", 10%Z);
   ("notes.md", 50%Z)].

(** A migrations folder without any migration. *)
Definition noSqlFolder : list (string * Z) :=
  [("README.md", 5%Z); ("meta", 7%Z)].

(** A directory [/work/proj] that holds [wrangler.json] and
    [wrangler.jsonc] but no [wrangler.toml]. *)
Definition twoWranglerFs : FileSystem :=
  {| existsSync := fun p =>
       mem p ["/work/proj"; "/work/proj/wrangler.json";
              "/work/proj/wrangler.jsonc"];
     readFileSync := fun _ => Err (JsError "ENOENT");
     readdirSync := fun _ => Err (JsError "ENOENT");
     statSync := fun _ => Err (JsError "ENOENT") |}.

(** The two prompts of the end-to-end run. *)
Definition confirmNewMigration : Event :=
  PromptConfirm "Want to create a new migration?" false.

Definition selectInitMigration : Event :=
  PromptSelect "Select a migration:"
    [ {| label := "NEWEST 0000_init.sql  00:00 1970-01-01";
         value := "/work/proj/drizzle/0000_init.sql" |} ]
    (Some "/work/proj/drizzle/0000_init.sql").

End Scenario.

(* ------------------------------------------------------------------ *)
(** * Vocabulary for further properties *)

Module Scan.
Import JsRegExp.

(** The loop of [matcher] for [Star], under its own name: [matcher] on
    [Star greedy r'] with continuation [k] is [starLoop greedy r' k] run on
    the length of the remaining input. *)
Section Loop.

Variables (greedy : bool) (r' : re) (k : MState -> option MState).

Fixpoint starLoop (fuel : nat) (st0 : MState) {struct fuel}
  : option MState :=
  match fuel with
  | O => k st0
  | S fuel' =>
      let again (_ : unit) :=
        matcher r' st0 (fun st1 =>
          if Nat.eqb (consumed st1) (consumed st0) then None
          else starLoop fuel' st1) in
      if greedy
      then match again tt with Some x => Some x | None => k st0 end
      else match k st0 with Some x => Some x | None => again tt end
  end.

End Loop.

Definition mkState (s : jsstring) (n : nat) (g : option jsstring) : MState :=
  {| rest := s; consumed := n; group1 := g |}.

(** [tail] is empty or starts with a code unit outside of the class [p]. *)
Definition stopsAt (p : char16 -> bool) (tail : jsstring) : Prop :=
  match tail with [] => True | c :: _ => p c = false end.

(** [s] has no code unit [a] immediately followed by [b]. *)
Fixpoint noPair (a b : char16) (s : jsstring) : bool :=
  match s with
  | x :: ((y :: _) as s') => negb ((x =? a)%N && (y =? b)%N) && noPair a b s'
  | _ => true
  end.

(** [s] contains no [*/]. *)
Definition noClose (s : jsstring) : bool := noPair 42%N 47%N s.

(** The classes of the three patterns: [.], [[\s\S]] and [[}\]]]. *)
Definition notLineTerminator (c : char16) : bool := negb (isLineTerminator c).

Definition anyChar (c : char16) : bool :=
  isWhiteSpace c || negb (isWhiteSpace c).

Definition isClosing (c : char16) : bool := ((c =? 125)%N || (c =? 93)%N).

(** The end [\*\/] of the block-comment pattern. *)
Definition closer : re := Seq (Chr 42%N) (Chr 47%N).

(** What follows the white space after a comma that is not a trailing one:
    the end of the text, or a code unit that is neither white space nor a
    closing bracket. *)
Definition keepsComma (tail : jsstring) : Prop :=
  match tail with
  | [] => True
  | d :: _ => isWhiteSpace d = false /\ isClosing d = false
  end.

(** [c] occurs in [s]. *)
Fixpoint contains (c : ascii) (s : string) : bool :=
  match s with
  | EmptyString => false
  | String d s' => Ascii.eqb d c || contains c s'
  end.

End Scan.

Module Conduct.
Import ParseWranglerConfig ParseDrizzleConfig Index Observe.
Local Open Scope string_scope.

(** The [catch] of both parsers: a failure is thrown again as an [Error]
    whose message is [prefix], the path and the message of the cause. *)
Definition wrapError {A : Type} (prefix filePath : string) (t : Thrown A)
  : Thrown A :=
  match t with
  | Ok v => Ok v
  | Err e => Err (JsError (prefix ++ filePath ++ ": " ++ messageOf e))
  end.

(** The extensions that [parseDrizzleConfig] hands to [importModule]. *)
Definition isScriptExtension (extension : string) : bool :=
  String.eqb extension "ts" || String.eqb extension "js"
  || String.eqb extension "mts" || String.eqb extension "mjs".

(** An argument that survives the filter of [migrationParams]. *)
Definition nonEmpty (s : string) : list string := if truthy s then [s] else [].

(** The [stdio] option of the [drizzle-kit generate] invocation. *)
Definition generateStdio (h : Host) : option string :=
  Some (if stdin_isTTY h && stdout_isTTY h then "inherit" else "pipe").

(** [console.error] and [consola.error]. *)
Definition isErrorEvent (e : Event) : bool :=
  match e with
  | ConsoleError _ => true
  | ConsolaError _ => true
  | _ => false
  end.

(** The last event of [evs] is an error message. *)
Definition lastIsError (evs : list Event) : bool :=
  match rev evs with
  | e :: _ => isErrorEvent e
  | [] => false
  end.

(** Where an uncaught exception of the script comes from: the [length] of
    an [undefined] list of bindings, [readdirSync] or [statSync]. *)
Definition uncaughtOrigin (f : FileSystem) (e : Exn) : Prop :=
  e = JsTypeError "undefined is not an object (evaluating 'databases.length')"
  \/ (exists p, readdirSync f p = Err e)
  \/ (exists p, statSync f p = Err e).

(** An outcome is accounted for by the events [evs] that led to it: an exit
    has status 1 and an error message as last event, an uncaught exception
    has one of the origins above. *)
Definition accounted {A : Type} (w' : World) (evs : list Event)
  (o : Outcome A) : Prop :=
  match o with
  | Return _ => True
  | Exited code => code = 1%Z /\ lastIsError evs = true
  | Uncaught e => uncaughtOrigin (fs w') e
  end.

(** A step of the script before the execution: it only appends events, none
    of them an execute invocation, and its outcome is accounted for. *)
Definition PhaseAt {A : Type} (c : M A) (w : World) : Prop :=
  exists evs,
    trace (snd (c w)) = (trace w ++ evs)%list
    /\ executeInvocations evs = []
    /\ accounted (snd (c w)) evs (fst (c w)).

Definition Phase {A : Type} (c : M A) : Prop := forall w, PhaseAt c w.

(** A computation that ends with the execution: at most one execute
    invocation, and when it returns, that invocation and the success message
    are its last two events. *)
Definition FinaleAt (c : M unit) (w : World) : Prop :=
  exists evs,
    trace (snd (c w)) = (trace w ++ evs)%list
    /\ accounted (snd (c w)) evs (fst (c w))
    /\ List.length (executeInvocations evs) <= 1
    /\ (fst (c w) = Return tt ->
        exists pre args cwd,
          evs = (pre ++ [Execa "bunx" args cwd None;
                         SpinnerSuccess "Successfully migrated!"])%list
          /\ executeInvocations pre = []
          /\ isExecute (Execa "bunx" args cwd None) = true).

(** A computation asks before it executes: every execute invocation among
    its events comes after the confirmation of a new migration, under one of
    the two texts of that prompt. *)
Definition AsksAt {A : Type} (c : M A) (w : World) : Prop :=
  exists evs,
    trace (snd (c w)) = (trace w ++ evs)%list
    /\ forall before e later,
         evs = (before ++ e :: later)%list ->
         isExecute e = true ->
         exists message,
           (message = "Want to create a new migration?"
            \/ message
               = "Want to create a new migration? (Currently we can't locate any migrations)")
           /\ In (PromptConfirm message false) before.

(** A computation only appends events, and each of them satisfies [P]. *)
Definition EventsAt {A : Type} (P : Event -> Prop) (c : M A) (w : World)
  : Prop :=
  exists evs, trace (snd (c w)) = (trace w ++ evs)%list /\ Forall P evs.

(** The run of the script from [w0] gets as far as the listing of the
    migrations folder: every step before it returns, with the working
    directory, the drizzle configuration, the environment and the database
    named, and leaves the world [w9]. *)
Definition reachesListing (h : Host) (opts : Options) (w0 : World)
  (resolvedWorkdir : string) (drizzleConfig : DrizzleConfig)
  (selectedEnvironment : option string)
  (selectedDatabase : option D1Database) (w9 : World) : Prop :=
  exists w1 w2 configPath w3 wranglerConfig w4 drizzleConfigPath w5 w6 w7 w8,
    resolveWorkdir h opts w0 = (Return resolvedWorkdir, w1)
    /\ promptMode h opts w1 = (Return tt, w2)
    /\ locateConfig h "wrangler" wranglerConfigs resolvedWorkdir w2
       = (Return configPath, w3)
    /\ loadWranglerConfig h configPath w3 = (Return wranglerConfig, w4)
    /\ locateConfig h "drizzle" drizzleConfigs resolvedWorkdir w4
       = (Return drizzleConfigPath, w5)
    /\ loadDrizzleConfig h drizzleConfigPath w5 = (Return drizzleConfig, w6)
    /\ selectEnvironment h wranglerConfig w6 = (Return selectedEnvironment, w7)
    /\ selectDatabase h (databasesOf wranglerConfig selectedEnvironment) w7
       = (Return selectedDatabase, w8)
    /\ offerNewMigration h resolvedWorkdir drizzleConfig w8 = (Return tt, w9).

End Conduct.

Module Scenario2.
Import ParseWranglerConfig ParseDrizzleConfig Index Observe Scenario.
Local Open Scope string_scope.

(** The project directory before any migration was generated: the two
    configuration files, no [drizzle] folder. *)
Definition freshFs : FileSystem :=
  {| existsSync := fun p =>
       mem p ["/work/proj"; "/work/proj/wrangler.toml";
              "/work/proj/drizzle.config.ts"];
     readFileSync := fun p =>
       if String.eqb p "/work/proj/wrangler.toml" then Ok (js "# wrangler")
       else Err (JsError "ENOENT");
     readdirSync := fun _ => Err (JsError "ENOENT");
     statSync := fun _ => Err (JsError "ENOENT") |}.

(** The host [h] with another [execa]. *)
Definition withExeca (h : Host)
  (command :
     string -> list string -> string -> option string -> FileSystem ->
     Thrown FileSystem) : Host :=
  {| any := any h;
     asWranglerConfig := asWranglerConfig h;
     asDrizzleConfig := asDrizzleConfig h;
     process_cwd := process_cwd h;
     stdin_isTTY := stdin_isTTY h;
     stdout_isTTY := stdout_isTTY h;
     path_resolve := path_resolve h;
     path_join := path_join h;
     pathToFileURL_href := pathToFileURL_href h;
     toLowerCase := toLowerCase h;
     parseToml := parseToml h;
     JSON_parse := JSON_parse h;
     import := import h;
     pc_yellow := pc_yellow h;
     pc_magenta := pc_magenta h;
     pc_gray := pc_gray h;
     pc_blue := pc_blue h;
     pc_green := pc_green h;
     pc_red := pc_red h;
     format := format h;
     prompt_select := prompt_select h;
     prompt_confirm := prompt_confirm h;
     execa := command |}.

(** A user who answers every confirmation with yes. *)
Definition sayYes (message : string) (initial : bool) : Thrown (option bool) :=
  Ok (Some true).

(** A host whose [drizzle-kit generate] creates the folder with
    0000_init.sql, and one whose external commands fail. *)
Definition generatingHost : Host :=
  withExeca (projectHost prodApp (takePosition 0) sayYes)
    (fun _ _ _ _ _ => Ok (projectFs initOnly)).

Definition failingHost : Host :=
  withExeca (projectHost prodApp (takePosition 0) sayYes)
    (fun _ _ _ _ _ => Err (JsError "exit code 1")).

(** A binding with the identifier of [appDb] under another name. *)
Definition shadowedDb : D1Database :=
  {| binding := "DB3"; database_name := "copy"; database_id := Some "abc123" |}.

(** Two migrations, the later one first. *)
Definition laterFirst : list MigrationFile :=
  [ {| file_name := "0001_b.sql"; path := "/m/0001_b.sql"; mtime := 30 |};
    {| file_name := "0000_a.sql"; path := "/m/0000_a.sql"; mtime := 10 |} ].

(** The texts of an array of two elements, of an object around a block
    comment, and of an object with a comment that is not closed. *)
Definition arrayOfTwo : jsstring := js "[1, 2]".

Definition commentedObject : jsstring := js "{ /* x */ }".

Definition openComment : jsstring := js "{ /* x }".

End Scenario2.

(* ------------------------------------------------------------------ *)
(** * Proof automation *)

Import ParseWranglerConfig ParseDrizzleConfig Index Observe Scenario.
Local Open Scope string_scope.

(** Unfold the monad and bring every trace to the form of one list appended
    to the initial trace. *)
Ltac script_simpl :=
  unfold bind, emit, ret, process_exit, throw, getFs, setFs, after;
  cbn [fs trace fst snd Nat.eqb Nat.ltb Nat.leb List.length hd app];
  rewrite <- ?app_assoc;
  cbn [app].

Tactic Notation "script_simpl" "in" hyp(H) :=
  unfold bind, emit, ret, process_exit, throw, getFs, setFs, after in H;
  cbn [fs trace fst snd Nat.eqb Nat.ltb Nat.leb List.length hd app] in H;
  rewrite <- ?app_assoc in H;
  cbn [app] in H.

Import Scan Conduct Scenario2.

(** One step of the loop of [matcher]. *)
Ltac loop_step :=
  unfold mkState;
  cbn [starLoop JsRegExp.matcher JsRegExp.step1 JsRegExp.rest
       JsRegExp.consumed JsRegExp.group1 app].

(** A branch of a step of the script that ends without running into another
    computation: name its events and check that they account for it. *)
Ltac phase_leaf :=
  script_simpl;
  first
    [ eexists; split; [reflexivity|]; split; [reflexivity|];
      cbn [accounted]; first [ exact I | split; reflexivity ]
    | exists []; rewrite app_nil_r; split; [reflexivity|];
      split; [reflexivity|]; exact I ].

(* ------------------------------------------------------------------ *)
(** * Properties *)

(** ** The two [parseJsonc] routines *)

(** C10: the JSONC-stripping routine of the wrangler-config parser and the
    one of the drizzle-config parser compute the same function: for every
    input they produce the same cleaned text, hence the same parse result
    or the same failure. *)
Theorem C10_parseJsonc_routines_agree :
  forall (any : Type) (JSON_parse : jsstring -> Thrown any)
         (content : jsstring),
    ParseWranglerConfig.cleaned content = ParseDrizzleConfig.cleaned content
    /\ ParseWranglerConfig.parseJsonc JSON_parse content
       = ParseDrizzleConfig.parseJsonc JSON_parse content.
Proof.
  intros any0 JSON_parse0 content.
  assert (Hclean : ParseWranglerConfig.cleaned content
                   = ParseDrizzleConfig.cleaned content).
  { unfold ParseWranglerConfig.cleaned, ParseDrizzleConfig.cleaned.
    reflexivity. }
  split; [exact Hclean|].
  unfold ParseWranglerConfig.parseJsonc, ParseDrizzleConfig.parseJsonc.
  now rewrite Hclean.
Qed.

(** On a text whose comments and trailing commas stand outside of string
    literals, the routine leaves the plain JSON text. *)
Lemma cleaned_commentedJsonc :
  ParseWranglerConfig.cleaned commentedJsonc = commentedJsoncStripped.
Proof. vm_compute. reflexivity. Qed.

(** C3: on plain JSON texts, without any comment or trailing comma, whose
    string literals contain // or /*, [parseJsonc] does not parse the text
    itself.  For the object with key u and string value a//b the
    line-comment pattern matches inside the string literal and [JSON.parse]
    receives the text cut after the a, with the string literal left open.
    For the object with the string values /* and */ the block-comment
    pattern removes everything between them and [JSON.parse] receives the
    text of another object. *)
Theorem C3_parseJsonc_cuts_string_with_slashes :
  forall (any : Type) (JSON_parse : jsstring -> Thrown any),
    ParseWranglerConfig.parseJsonc JSON_parse urlLikeJson
    = JSON_parse urlLikeJsonCut
    /\ urlLikeJsonCut <> urlLikeJson
    /\ ParseWranglerConfig.parseJsonc JSON_parse blockLikeJson
       = JSON_parse blockLikeJsonCut
    /\ blockLikeJsonCut <> blockLikeJson.
Proof.
  intros any0 JSON_parse0.
  assert (Hline : ParseWranglerConfig.cleaned urlLikeJson = urlLikeJsonCut)
    by (vm_compute; reflexivity).
  assert (Hblock : ParseWranglerConfig.cleaned blockLikeJson
                   = blockLikeJsonCut)
    by (vm_compute; reflexivity).
  unfold ParseWranglerConfig.parseJsonc. rewrite Hline, Hblock.
  split; [reflexivity|]. split; [vm_compute; discriminate|].
  split; [reflexivity|]. vm_compute; discriminate.
Qed.

(** ** End to end *)

(** However the prompts are answered, the end-to-end run of C1 does not both
    stay free of prompts and issue one execute invocation. *)
Lemma C1_prompts_are_always_invoked :
  ~ exists answerSelect answerConfirm,
      let r := run (projectHost prodApp answerSelect answerConfirm)
                   remoteInProj (projectFs initOnly) in
      prompts (snd r) = []
      /\ List.length (executeInvocations (snd r)) = 1%nat.
Proof.
  intros (ps & pc & H & _).
  unfold run in H.
  vm_compute in H.
  destruct (pc _ _) as [[[|]|]|e]; vm_compute in H;
    try discriminate H;
    destruct (ps _ _ _) as [[s|]|e']; vm_compute in H; try discriminate H.
  all: destruct s; vm_compute in H; discriminate H.
Qed.

(** A step that returns hands its value and its world to the rest. *)
Lemma bind_Return {A B : Type} (c : M A) (k : A -> M B) (w w' : World)
  (a : A) :
  c w = (Return a, w') -> bind c k w = k a w'.
Proof. intros H. unfold bind. now rewrite H. Qed.

(** The prompts of the script from the offer of a new migration on: the
    confirmation, whose text depends on the folder being there, and the
    selection of a migration. *)
Lemma EventsAt_migration_steps (h : Host) (opts : Options) (wd : string)
  (cfg : DrizzleConfig) (db : option D1Database) (env : option string)
  (w : World) :
  EventsAt
    (fun e =>
       isPrompt e = true ->
       e = PromptConfirm
             ("Want to create a new migration?"
              ++ (if negb (existsSync (fs w) (migrationsFolderOf h wd cfg))
                  then " (Currently we can't locate any migrations)"
                  else ""))
             false
       \/ exists options initial,
            e = PromptSelect (pc_yellow h "Select a migration:") options
                  initial)
    (bind (offerNewMigration h wd cfg)
       (fun _ =>
          bind (selectMigration h wd cfg)
            (fun selectedMigration =>
               executeMigration h opts wd db env selectedMigration)))
    w.
Proof.
  unfold EventsAt, offerNewMigration, promptConfirm, createMigration,
    selectMigration, promptSelect, executeMigration, execaM.
  script_simpl.
  destruct (prompt_confirm h _ false) as [[[|]|]|x];
    unfold tryCatch; cbn [data error]; script_simpl.
  all: repeat
         match goal with
         | |- context [if ?b then _ else _] => destruct b; script_simpl
         | |- context [match execa ?a ?b ?c ?d ?e ?f with _ => _ end] =>
             destruct (execa a b c d e f); script_simpl
         | |- context [match readdirSync ?a ?b with _ => _ end] =>
             destruct (readdirSync a b); script_simpl
         | |- context [match mapThrown ?a ?b with _ => _ end] =>
             destruct (mapThrown a b); script_simpl
         end.
  all: eexists; (split; [reflexivity|]).
  all: repeat (constructor;
               [intros Hp;
                first [ discriminate Hp
                      | left; reflexivity
                      | right; eexists _, _; reflexivity ]|]).
  all: constructor.
Qed.

(** On the project of C1 the steps before the offer of a new migration
    return without any event, whatever the prompts and the commands do. *)
Lemma script_of_project answerSelect answerConfirm command :
  let h :=
    withExeca (projectHost prodApp answerSelect answerConfirm) command in
  script h remoteInProj (emptyWorld (projectFs initOnly))
  = bind (offerNewMigration h "/work/proj" {| out := Some "drizzle" |})
      (fun _ =>
         bind (selectMigration h "/work/proj" {| out := Some "drizzle" |})
           (fun selectedMigration =>
              executeMigration h remoteInProj "/work/proj" (Some appDb)
                (Some "prod") selectedMigration))
      (emptyWorld (projectFs initOnly)).
Proof.
  intros h. unfold script.
  set (w := emptyWorld (projectFs initOnly)).
  rewrite (@bind_Return _ _ (resolveWorkdir h remoteInProj) _ w w
             "/work/proj" eq_refl).
  rewrite (@bind_Return _ _ (promptMode h remoteInProj) _ w w tt eq_refl).
  rewrite (@bind_Return _ _
             (locateConfig h "wrangler" wranglerConfigs "/work/proj") _ w w
             "/work/proj/wrangler.toml" eq_refl).
  rewrite (@bind_Return _ _
             (loadWranglerConfig h "/work/proj/wrangler.toml") _ w w
             prodApp eq_refl).
  rewrite (@bind_Return _ _
             (locateConfig h "drizzle" drizzleConfigs "/work/proj") _ w w
             "/work/proj/drizzle.config.ts" eq_refl).
  rewrite (@bind_Return _ _
             (loadDrizzleConfig h "/work/proj/drizzle.config.ts") _ w w
             {| out := Some "drizzle" |} eq_refl).
  rewrite (@bind_Return _ _ (selectEnvironment h prodApp) _ w w
             (Some "prod") eq_refl).
  rewrite (@bind_Return _ _
             (selectDatabase h (databasesOf prodApp (Some "prod"))) _ w w
             (Some appDb) eq_refl).
  reflexivity.
Qed.

(** C1 (amended): with one environment prod holding the one binding of
    database app, [out: "drizzle"] holding the one file 0000_init.sql, and
    the flags [--remote --dir ./proj], the run asks nothing about mode,
    environment or database: its only prompts are the confirmation of a new
    migration and the selection of a migration.  When the user declines the
    new migration and selects the offered file, the run issues exactly one
    execute invocation, for database app, mode remote, environment prod and
    the path of 0000_init.sql in the migrations folder.  All of this holds
    whatever the external commands do; whether the run then ends well is up
    to the executor and no part of the statement. *)
Theorem C1_end_to_end :
  forall answerSelect answerConfirm command,
    let r := run (withExeca (projectHost prodApp answerSelect answerConfirm)
                    command)
                 remoteInProj (projectFs initOnly) in
    (forall e, In e (prompts (snd r)) ->
               e = confirmNewMigration
               \/ exists options initial,
                    e = PromptSelect "Select a migration:" options initial)
    /\ (answerConfirm "Want to create a new migration?" false
          = Ok (Some false) ->
        answerSelect "Select a migration:"
          [ {| label := "NEWEST 0000_init.sql  00:00 1970-01-01";
               value := "/work/proj/drizzle/0000_init.sql" |} ]
          (Some "/work/proj/drizzle/0000_init.sql")
          = Ok (Some "/work/proj/drizzle/0000_init.sql") ->
        prompts (snd r) = [confirmNewMigration; selectInitMigration]
        /\ executeArgs (snd r)
           = [["wrangler"; "d1"; "execute"; "app"; "--remote";
               "--env"; "prod"; "--file";
               "/work/proj/drizzle/0000_init.sql"]]
        /\ List.length (executeInvocations (snd r)) = 1%nat).
Proof.
  intros ps pc command r. subst r. split.
  - intros e He.
    destruct (EventsAt_migration_steps
                (withExeca (projectHost prodApp ps pc) command) remoteInProj
                "/work/proj" {| out := Some "drizzle" |} (Some appDb)
                (Some "prod") (emptyWorld (projectFs initOnly)))
      as (evs & Htrace & Hall).
    rewrite <- script_of_project in Htrace.
    unfold run in He.
    change {| fs := projectFs initOnly; trace := [] |}
      with (emptyWorld (projectFs initOnly)) in He.
    destruct (script _ remoteInProj (emptyWorld (projectFs initOnly)))
      as [o w'].
    cbn [snd trace emptyWorld app] in Htrace, He. rewrite Htrace in He.
    unfold prompts in He. apply filter_In in He as [Hin Hprompt].
    rewrite Forall_forall in Hall.
    destruct (Hall e Hin Hprompt) as [Hc | Hs]; [left|right]; assumption.
  - intros Hc Hs. unfold run. vm_compute.
    vm_compute in Hc. rewrite Hc. vm_compute.
    vm_compute in Hs. rewrite Hs. vm_compute.
    destruct (command _ _ _ _ _); vm_compute; repeat split.
Qed.

(** C1, at the user who declines the new migration and takes the
    highlighted migration, with an executor that fails. *)
Lemma C1_end_to_end_witness :
  let r := run (withExeca
                  (projectHost prodApp (takeInitialWithMode "local")
                     keepDefault)
                  (fun _ _ _ _ _ => Err (JsError "exit code 1")))
               remoteInProj (projectFs initOnly) in
  prompts (snd r) = [confirmNewMigration; selectInitMigration]
  /\ executeArgs (snd r)
     = [["wrangler"; "d1"; "execute"; "app"; "--remote";
         "--env"; "prod"; "--file"; "/work/proj/drizzle/0000_init.sql"]]
  /\ List.length (executeInvocations (snd r)) = 1%nat.
Proof.
  apply (C1_end_to_end (takeInitialWithMode "local") keepDefault
           (fun _ _ _ _ _ => Err (JsError "exit code 1")));
    reflexivity.
Defined.

(** C2: without [--local] and [--remote] the mode is asked first, and the
    answer does not reach the executor: whichever mode the user answers, the
    execute invocation carries neither [--local] nor [--remote]. *)
Theorem C2_mode_answer_is_dropped :
  forall mode : string,
    let r := run (projectHost prodApp (takeInitialWithMode mode) keepDefault)
                 noModeInProj (projectFs initOnly) in
    hd_error (prompts (snd r))
    = Some (PromptSelect "Want to migrate locally or remotely?"
              [ {| label := "local"; value := "local" |};
                {| label := "remote"; value := "remote" |} ]
              (Some "local"))
    /\ executeArgs (snd r)
       = (if truthy mode
          then [["wrangler"; "d1"; "execute"; "app"; "--env"; "prod";
                 "--file"; "/work/proj/drizzle/0000_init.sql"]]
          else [])
    /\ withoutModeFlag (executeArgs (snd r)) = true.
Proof.
  intros mode. destruct mode as [|c mode]; vm_compute; repeat split.
Qed.

(** ** Config Locator *)

Lemma filter_first_match {A : Type} (p : A -> bool) (l : list A) (x : A)
  (found : list A) :
  filter p l = x :: found ->
  exists pre post,
    l = (pre ++ x :: post)%list
    /\ (forall y, In y pre -> p y = false) /\ p x = true.
Proof.
  induction l as [|y l IH]; simpl; [discriminate|].
  destruct (p y) eqn:Hy.
  - intros H. injection H as -> _.
    exists [], l. repeat split; [intros ? []|exact Hy].
  - intros H. destruct (IH H) as (pre & post & -> & Hpre & Hx).
    exists (y :: pre), post. repeat split; auto.
    intros z [<-|Hz]; auto.
Qed.

(** C8: when no candidate exists the locator ends the run with status 1
    after an error that lists the candidate names; when more than one
    exists it warns and returns the first existing candidate of the
    caller's list, every candidate before it being absent; and it consults
    the file system through [existsSync] only, never by listing the
    directory. *)
Theorem C8_locator_first_in_priority_order :
  forall (h : Host) (kind : string) (candidates : list string)
         (resolvedWorkdir : string) (w : World),
    let found := foundConfigs h (fs w) candidates resolvedWorkdir in
    (found = [] ->
     locateConfig h kind candidates resolvedWorkdir w
     = (Exited 1,
        after w
          [ConsoleError ("Error: No " ++ kind
                         ++ " configuration file found in '"
                         ++ resolvedWorkdir ++ "'");
           ConsoleError ("Expected one of: " ++ join ", " candidates)]))
    /\ (1 < List.length found ->
        exists first before later,
          candidates = (before ++ first :: later)%list
          /\ (forall c, In c before ->
                existsSync (fs w) (path_join h resolvedWorkdir c) = false)
          /\ existsSync (fs w) (path_join h resolvedWorkdir first) = true
          /\ locateConfig h kind candidates resolvedWorkdir w
             = (Return (path_join h resolvedWorkdir first),
                after w
                  [ConsoleWarn ("Warning: Multiple " ++ kind
                                ++ " config files found: "
                                ++ join ", " found);
                   ConsoleLog ("Using: " ++ first)]))
    /\ (forall f' : FileSystem,
          (forall p, existsSync f' p = existsSync (fs w) p) ->
          let r := locateConfig h kind candidates resolvedWorkdir w in
          let r' := locateConfig h kind candidates resolvedWorkdir
                      {| fs := f'; trace := trace w |} in
          fst r' = fst r /\ trace (snd r') = trace (snd r)).
Proof.
  intros h kind candidates wd w found. split; [|split].
  - intros Hnone. unfold locateConfig. script_simpl. fold found.
    rewrite Hnone. script_simpl. reflexivity.
  - intros Hmany. destruct found as [|first rest] eqn:Hfound;
      [simpl in Hmany; lia|].
    destruct (filter_first_match _ _ Hfound)
      as (before & later & Hsplit & Hbefore & Hfirst).
    exists first, before, later. repeat split; auto.
    unfold locateConfig. script_simpl. fold found. rewrite Hfound.
    destruct rest as [|second rest]; [simpl in Hmany; lia|].
    script_simpl. reflexivity.
  - intros f' Hsame r r'. subst r r'.
    assert (Hfound : foundConfigs h f' candidates wd = found).
    { unfold found, foundConfigs. apply filter_ext. intros c. apply Hsame. }
    unfold locateConfig. script_simpl. rewrite Hfound. fold found.
    destruct found as [|first [|second rest]]; script_simpl; auto.
Qed.

(** C8, on the project directory with [wrangler.json] and [wrangler.jsonc]
    but no [wrangler.toml]. *)
Lemma C8_locator_witness :
  exists first before later,
    wranglerConfigs = (before ++ first :: later)%list
    /\ first = "wrangler.json"
    /\ fst (locateConfig (projectHost prodApp (takePosition 0) keepDefault)
              "wrangler" wranglerConfigs "/work/proj"
              (emptyWorld twoWranglerFs))
       = Return "/work/proj/wrangler.json".
Proof.
  destruct (C8_locator_first_in_priority_order
              (projectHost prodApp (takePosition 0) keepDefault)
              "wrangler" wranglerConfigs "/work/proj"
              (emptyWorld twoWranglerFs)) as (_ & Hmany & _).
  destruct Hmany as (first & before & later & Hsplit & Hbefore & Hfirst & Hrun).
  - vm_compute. lia.
  - exists first, before, later. split; [exact Hsplit|].
    assert (Hname : first = "wrangler.json").
    { destruct before as [|b0 before].
      - injection Hsplit as <- _. vm_compute in Hfirst. discriminate.
      - injection Hsplit as <- Hsplit.
        destruct before as [|b1 before].
        + now injection Hsplit as <- _.
        + injection Hsplit as <- Hsplit.
          specialize (Hbefore "wrangler.json" (or_intror (or_introl eq_refl))).
          vm_compute in Hbefore. discriminate. }
    split; [exact Hname|]. rewrite Hrun. subst first. reflexivity.
Defined.

(** ** Target Resolver: environment *)

(** C5: with exactly one environment key the environment is selected and
    nothing is asked; with no environment key (the [env] mapping absent or
    empty) the script does invoke the interactive choice, with an empty list
    of options, and can only go on with a non-empty name, so the top-level
    scope is not reached. *)
Theorem C5_no_environment_is_prompted :
  forall (h : Host) (cfg : WranglerConfig) (w : World),
    (forall key, environmentsOf cfg = [key] ->
       selectEnvironment h cfg w = (Return (Some key), w))
    /\ (environmentsOf cfg = [] ->
        exists o w' more,
          selectEnvironment h cfg w = (o, w')
          /\ trace w'
             = (trace w
                ++ PromptSelect (pc_yellow h "Select an environment:") []
                     None :: more)%list
          /\ (forall s, o = Return s -> truthyOpt s = true)).
Proof.
  intros h cfg w. split.
  - intros key Hone. unfold selectEnvironment. rewrite Hone. reflexivity.
  - intros Hnone. unfold selectEnvironment, promptSelect. rewrite Hnone.
    script_simpl.
    destruct (cancelled _) eqn:Hc; script_simpl.
    + eexists _, _, _. split; [reflexivity|]. split; [reflexivity|].
      intros s Hs. discriminate Hs.
    + eexists _, _, []. split; [reflexivity|]. split; [reflexivity|].
      intros s Hs. injection Hs as <-.
      unfold cancelled in Hc. apply orb_false_elim in Hc as [Hc _].
      apply negb_false_iff in Hc. exact Hc.
Qed.

(** C5, on a configuration that has top-level bindings only. *)
Lemma C5_no_environment_witness :
  exists o w' more,
    selectEnvironment (projectHost (topLevelOnly [appDb]) (takePosition 0)
                         keepDefault)
      (topLevelOnly [appDb]) (emptyWorld (projectFs initOnly)) = (o, w')
    /\ trace w' = (PromptSelect "Select an environment:" [] None :: more)%list
    /\ (forall s, o = Return s -> truthyOpt s = true).
Proof.
  apply (C5_no_environment_is_prompted
           (projectHost (topLevelOnly [appDb]) (takePosition 0) keepDefault)
           (topLevelOnly [appDb]) (emptyWorld (projectFs initOnly))).
  reflexivity.
Defined.

(** The whole run on that configuration: the environment is asked with no
    option to choose from, and the run is cancelled. *)
Lemma run_without_environments :
  run (projectHost (topLevelOnly [appDb]) (takePosition 0) keepDefault)
      remoteInProj (projectFs initOnly)
  = (Exited 1,
     [PromptSelect "Select an environment:" [] None;
      ConsolaError "Migration cancelled."]).
Proof. vm_compute. reflexivity. Qed.

(** ** Target Resolver: database *)

(** C6: an empty list of bindings in the chosen scope ends the run with
    status 1 after the message that no database is configured; a scope
    without any list of bindings makes the script throw a [TypeError] that
    nothing catches, without any message of its own. *)
Theorem C6_absent_bindings_throw :
  forall (h : Host) (cfg : WranglerConfig) (selectedEnvironment : option string)
         (w : World),
    (databasesOf cfg selectedEnvironment = Some [] ->
     selectDatabase h (databasesOf cfg selectedEnvironment) w
     = (Exited 1,
        after w [ConsoleError "No cloudflare d1 databases found/configured."]))
    /\ (databasesOf cfg selectedEnvironment = None ->
        exists msg,
          selectDatabase h (databasesOf cfg selectedEnvironment) w
          = (Uncaught (JsTypeError msg), w)).
Proof.
  intros h cfg sel w. split; intros ->.
  - reflexivity.
  - eexists. reflexivity.
Qed.

(** C6, on the environment prod that has no [d1_databases] entry. *)
Lemma C6_absent_bindings_witness :
  exists msg,
    selectDatabase (projectHost prodWithoutBindings (takePosition 0)
                      keepDefault)
      (databasesOf prodWithoutBindings (Some "prod"))
      (emptyWorld (projectFs initOnly))
    = (Uncaught (JsTypeError msg), emptyWorld (projectFs initOnly)).
Proof.
  apply (C6_absent_bindings_throw
           (projectHost prodWithoutBindings (takePosition 0) keepDefault)
           prodWithoutBindings (Some "prod")
           (emptyWorld (projectFs initOnly))).
  reflexivity.
Defined.

(** The whole run on that configuration ends by the uncaught exception,
    before anything is printed. *)
Lemma run_without_bindings :
  run (projectHost prodWithoutBindings (takePosition 0) keepDefault)
      remoteInProj (projectFs initOnly)
  = (Uncaught
       (JsTypeError
          "undefined is not an object (evaluating 'databases.length')"),
     []).
Proof. vm_compute. reflexivity. Qed.

Lemma find_idIs_Some (chosen : string) (databases : list D1Database)
  (db : D1Database) :
  find (idIs chosen) databases = Some db ->
  In db databases /\ database_id db = Some chosen.
Proof.
  intros H. apply find_some in H as [Hin Hid]. split; [exact Hin|].
  unfold idIs in Hid. destruct (database_id db) as [id|]; [|discriminate].
  apply String.eqb_eq in Hid. now subst id.
Qed.

Lemma find_idIs_offered (chosen : string) (databases : list D1Database) :
  chosen <> "" ->
  In chosen (map value (dbChoices databases)) ->
  exists db, find (idIs chosen) databases = Some db.
Proof.
  intros Hne Hin. unfold dbChoices in Hin. rewrite map_map in Hin.
  apply in_map_iff in Hin as (db & Hval & Hdb). cbn [value] in Hval.
  destruct (find (idIs chosen) databases) as [db'|] eqn:Hfind;
    [now exists db'|].
  exfalso. apply (find_none _ _ Hfind) in Hdb. unfold idIs in Hdb.
  destruct (database_id db) as [id|]; [|now apply Hne].
  subst id. now rewrite String.eqb_refl in Hdb.
Qed.

(** C4: the binding the user selects among several should be the one the
    run works on.  The script offers a binding without identifier under the
    empty value, and takes the empty value for a cancellation: the user who
    selects such a binding, at whatever position, gets the message of a
    cancelled migration and exit status 1.  The same binding, when it is the
    only one, is selected without any prompt. *)
Theorem C4_absent_identifier_choice_is_cancelled :
  forall (h : Host) (databases : list D1Database) (w : World)
         (position : nat) (db : D1Database),
    1 < List.length databases ->
    nth_error databases position = Some db ->
    database_id db = None ->
    prompt_select h (pc_yellow h "Select a database to migrate to:")
      (dbChoices databases) (Some "local")
    = Ok (option_map value (nth_error (dbChoices databases) position)) ->
    selectDatabase h (Some databases) w
    = (Exited 1,
       after w
         [PromptSelect (pc_yellow h "Select a database to migrate to:")
            (dbChoices databases) (Some "local");
          ConsolaError "Migration cancelled."])
    /\ selectDatabase h (Some [db]) w = (Return (Some db), w).
Proof.
  intros h databases w position db Hmany Hnth Hid Hanswer.
  split; [|reflexivity].
  assert (Hchoice : option_map value (nth_error (dbChoices databases) position)
                    = Some "").
  { unfold dbChoices. rewrite nth_error_map, Hnth. cbn [option_map value].
    now rewrite Hid. }
  rewrite Hchoice in Hanswer.
  destruct databases as [|d0 [|d1 rest]]; try (simpl in Hmany; lia).
  unfold selectDatabase, promptSelect. script_simpl.
  remember (d0 :: d1 :: rest) as dbs eqn:Hdbs in *.
  rewrite Hanswer. unfold cancelled, tryCatch. cbn [data error].
  change (negb (truthy "") || false) with true. cbv iota.
  script_simpl. reflexivity.
Qed.

(** C4, on two bindings of which the first has no identifier, the user
    selecting the first. *)
Lemma C4_absent_identifier_witness :
  let h := projectHost emptyWrangler (takePosition 0) keepDefault in
  selectDatabase h (Some [unnamedDb; secondDb]) (emptyWorld (projectFs initOnly))
  = (Exited 1,
     after (emptyWorld (projectFs initOnly))
       [PromptSelect "Select a database to migrate to:"
          [ {| label := "one - undefined"; value := "" |};
            {| label := "two - id2"; value := "id2" |} ]
          (Some "local");
        ConsolaError "Migration cancelled."])
  /\ selectDatabase h (Some [unnamedDb]) (emptyWorld (projectFs initOnly))
     = (Return (Some unnamedDb), emptyWorld (projectFs initOnly)).
Proof.
  exact (C4_absent_identifier_choice_is_cancelled
           (projectHost emptyWrangler (takePosition 0) keepDefault)
           [unnamedDb; secondDb] (emptyWorld (projectFs initOnly)) 0
           (db := unnamedDb) ltac:(simpl; lia) eq_refl eq_refl eq_refl).
Defined.

(** What the resolver does for the bindings that have an identifier: a list
    of one binding is selected without any prompt; for a longer list, a
    binding that the resolver returns is the first one whose identifier
    equals the non-empty value chosen at the prompt, and every offered
    non-empty value resolves to a binding; the resolver does not throw. *)
Lemma selectDatabase_resolves_by_identifier :
  forall (h : Host) (databases : list D1Database) (w : World),
    (forall db, databases = [db] ->
       selectDatabase h (Some databases) w = (Return (Some db), w))
    /\ (1 < List.length databases ->
        forall selected w',
          selectDatabase h (Some databases) w = (Return selected, w') ->
          exists chosen,
            prompt_select h (pc_yellow h "Select a database to migrate to:")
              (dbChoices databases) (Some "local") = Ok (Some chosen)
            /\ chosen <> ""
            /\ w' = after w
                      [PromptSelect
                         (pc_yellow h "Select a database to migrate to:")
                         (dbChoices databases) (Some "local")]
            /\ selected = find (idIs chosen) databases
            /\ (forall db, selected = Some db ->
                  In db databases /\ database_id db = Some chosen)
            /\ (In chosen (map value (dbChoices databases)) ->
                exists db, selected = Some db))
    /\ (forall e w', selectDatabase h (Some databases) w <> (Uncaught e, w')).
Proof.
  intros h databases w. split; [|split].
  - intros db ->. reflexivity.
  - intros Hmany selected w' Hrun.
    destruct databases as [|d0 [|d1 rest]]; try (simpl in Hmany; lia).
    unfold selectDatabase, promptSelect in Hrun. script_simpl in Hrun.
    remember (d0 :: d1 :: rest) as dbs eqn:Hdbs in *.
    destruct (prompt_select h (pc_yellow h "Select a database to migrate to:")
                (dbChoices dbs) (Some "local")) as [[chosen|]|e] eqn:Hp;
      unfold cancelled, tryCatch in Hrun;
      cbn [data error negb orb] in Hrun;
      try discriminate Hrun.
    destruct (truthy chosen) eqn:Ht; cbn [negb orb] in Hrun;
      [|discriminate Hrun].
    injection Hrun as <- <-.
    assert (Hne : chosen <> "").
    { intros ->. discriminate Ht. }
    exists chosen.
    split; [reflexivity|]. split; [exact Hne|]. split; [reflexivity|].
    split; [reflexivity|]. split.
    + intros db Hdb. now apply find_idIs_Some.
    + intros Hin. now apply find_idIs_offered.
  - intros e w' Hrun.
    destruct databases as [|d0 [|d1 rest]]; try discriminate Hrun.
    unfold selectDatabase, promptSelect in Hrun. script_simpl in Hrun.
    destruct (cancelled _); discriminate Hrun.
Qed.

(** On two bindings with identifiers, the user selecting the second. *)
Lemma selectDatabase_resolves_by_identifier_witness :
  exists chosen,
    chosen = "id2"
    /\ find (idIs chosen) [appDb; secondDb] = Some secondDb
    /\ fst (selectDatabase
              (projectHost emptyWrangler (takePosition 1) keepDefault)
              (Some [appDb; secondDb]) (emptyWorld (projectFs initOnly)))
       = Return (Some secondDb).
Proof.
  destruct (selectDatabase_resolves_by_identifier
              (projectHost emptyWrangler (takePosition 1) keepDefault)
              [appDb; secondDb] (emptyWorld (projectFs initOnly)))
    as (_ & Hmany & _).
  destruct (Hmany ltac:(simpl; lia) (Some secondDb)
              (after (emptyWorld (projectFs initOnly))
                 [PromptSelect "Select a database to migrate to:"
                    (dbChoices [appDb; secondDb]) (Some "local")])
              eq_refl)
    as (chosen & Hanswer & _ & _ & Hfind & _ & _).
  exists chosen.
  assert (Hchosen : chosen = "id2").
  { vm_compute in Hanswer. now injection Hanswer as <-. }
  split; [exact Hchosen|]. split; [now rewrite <- Hfind|]. reflexivity.
Defined.

(** ** Migration Set Resolver: ordering *)

Section Sorting.

Local Open Scope Z_scope.

Lemma insertSorted_Permutation {A : Type} (cmp : A -> A -> Z) (x : A)
  (l : list A) :
  Permutation (x :: l) (insertSorted cmp x l).
Proof.
  induction l as [|y l IH]; simpl; [apply Permutation_refl|].
  destruct (cmp x y <=? 0); [apply Permutation_refl|].
  eapply perm_trans; [apply perm_swap|]. now apply perm_skip.
Qed.

Lemma Array_sort_Permutation {A : Type} (cmp : A -> A -> Z) (l : list A) :
  Permutation l (Array_sort cmp l).
Proof.
  induction l as [|x l IH]; simpl; [constructor|].
  eapply perm_trans; [apply perm_skip, IH|].
  apply insertSorted_Permutation.
Qed.

Lemma insertSorted_sorted (x : MigrationFile) (l : list MigrationFile) :
  StronglySorted notOlder l ->
  StronglySorted notOlder (insertSorted byMtime x l).
Proof.
  induction 1 as [|y l Hl IH Hy]; simpl.
  - constructor; constructor.
  - unfold byMtime at 1. destruct (mtime y - mtime x <=? 0) eqn:Hcmp.
    + apply Z.leb_le in Hcmp. constructor; [now constructor|].
      constructor; [unfold notOlder; lia|].
      eapply Forall_impl; [|exact Hy]. unfold notOlder. intros; lia.
    + apply Z.leb_gt in Hcmp. constructor; [exact IH|].
      eapply Permutation_Forall; [apply insertSorted_Permutation|].
      constructor; [unfold notOlder; lia|exact Hy].
Qed.

Lemma sortByMtime_sorted (l : list MigrationFile) :
  StronglySorted notOlder (sortByMtime l).
Proof.
  induction l as [|x l IH]; simpl; [constructor|].
  now apply insertSorted_sorted.
Qed.

Lemma sorted_newestFirst (l : list MigrationFile) :
  StronglySorted notOlder l -> newestFirst l.
Proof.
  induction 1 as [|x l Hl IH Hx]; intros i j a b Ha Hb Hlt.
  - destruct i; discriminate Ha.
  - destruct i as [|i], j as [|j]; simpl in Ha, Hb.
    + injection Ha as <-. injection Hb as <-. lia.
    + apply Nat.lt_0_succ.
    + injection Hb as <-. apply nth_error_In in Ha.
      rewrite Forall_forall in Hx. specialize (Hx a Ha).
      unfold notOlder in Hx. lia.
    + apply -> Nat.succ_lt_mono. now apply (IH i j a b).
Qed.

Lemma insertSorted_filter (t : Z) (x : MigrationFile)
  (l : list MigrationFile) :
  filter (fun f => mtime f =? t) (insertSorted byMtime x l)
  = filter (fun f => mtime f =? t) (x :: l).
Proof.
  induction l as [|y l IH]; [reflexivity|].
  cbn [insertSorted]. unfold byMtime at 1.
  destruct (mtime y - mtime x <=? 0) eqn:Hcmp; [reflexivity|].
  apply Z.leb_gt in Hcmp.
  cbn [filter] in *. rewrite IH.
  destruct (mtime x =? t) eqn:Hx, (mtime y =? t) eqn:Hy; try reflexivity.
  apply Z.eqb_eq in Hx, Hy. lia.
Qed.

Lemma sortByMtime_keepsOrderOfEqual (l : list MigrationFile) :
  keepsOrderOfEqual l (sortByMtime l).
Proof.
  intros t. induction l as [|x l IH]; [reflexivity|].
  change (sortByMtime (x :: l)) with (insertSorted byMtime x (sortByMtime l)).
  rewrite insertSorted_filter. cbn [filter]. now rewrite IH.
Qed.

End Sorting.

Lemma mapWithIndexFrom_plain (h : Host) (k : nat) (l : list MigrationFile) :
  mapWithIndexFrom
    (fun file index =>
       {| label := migrationLabel h file index; value := path file |})
    (S k) l
  = map (plainChoice h) l.
Proof.
  revert k. induction l as [|f l IH]; intros k; [reflexivity|].
  cbn [mapWithIndexFrom map]. now rewrite IH.
Qed.

Lemma migrationChoices_cons (h : Host) (first : MigrationFile)
  (others : list MigrationFile) :
  migrationChoices h (first :: others)
  = flaggedChoice h first :: map (plainChoice h) others.
Proof.
  unfold migrationChoices, mapWithIndex. cbn [mapWithIndexFrom].
  now rewrite mapWithIndexFrom_plain.
Qed.

Lemma mapThrown_length {A B : Type} (f : A -> Thrown B) (l : list A)
  (l' : list B) :
  mapThrown f l = Ok l' -> List.length l' = List.length l.
Proof.
  revert l'. induction l as [|x l IH]; intros l'; simpl.
  - now intros [= <-].
  - destruct (f x); [|discriminate].
    destruct (mapThrown f l); [|discriminate].
    intros [= <-]. simpl. now rewrite (IH _ eq_refl).
Qed.

(** C7: the migrations offered for selection are the [.sql] entries of the
    folder ordered by time of last modification, later ones first, entries
    of equal time in the order of the listing; the first entry of the list
    is not older than any other, it alone carries the flag, and it is the
    initial choice of the prompt. *)
Theorem C7_migrations_newest_first :
  forall (h : Host) (resolvedWorkdir : string) (drizzleConfig : DrizzleConfig)
         (w : World) (allFiles : list string) (stats : list MigrationFile),
    let folder := migrationsFolderOf h resolvedWorkdir drizzleConfig in
    readdirSync (fs w) folder = Ok allFiles ->
    mapThrown (withStats h (fs w) folder)
      (filter (fun file => endsWith file ".sql") allFiles) = Ok stats ->
    stats <> [] ->
    exists first others more,
      sortByMtime stats = first :: others
      /\ trace (snd (selectMigration h resolvedWorkdir drizzleConfig w))
         = (trace w
            ++ ConsoleLog "Found SQL migration files (sorted by date):"
               :: PromptSelect (pc_yellow h "Select a migration:")
                    (flaggedChoice h first :: map (plainChoice h) others)
                    (Some (path first))
               :: more)%list
      /\ Permutation stats (first :: others)
      /\ newestFirst (first :: others)
      /\ keepsOrderOfEqual stats (first :: others)
      /\ Forall (fun f => (mtime f <= mtime first)%Z) stats.
Proof.
  intros h wd cfg w allFiles stats folder Hdir Hstats Hne.
  destruct (sortByMtime stats) as [|first others] eqn:Hsorted.
  { exfalso. apply Hne. apply Permutation_nil.
    rewrite <- Hsorted. apply Permutation_sym, Array_sort_Permutation. }
  assert (Hperm : Permutation stats (first :: others)).
  { rewrite <- Hsorted. apply Array_sort_Permutation. }
  assert (Hsort : StronglySorted (fun a b => (mtime b <= mtime a)%Z)
                    (first :: others)).
  { rewrite <- Hsorted. apply sortByMtime_sorted. }
  assert (Hlen : List.length (filter (fun file => endsWith file ".sql")
                                allFiles) <> 0).
  { rewrite <- (mapThrown_length _ _ Hstats).
    destruct stats; [contradiction|discriminate]. }
  assert (Hrun : exists more,
             trace (snd (selectMigration h wd cfg w))
             = (trace w
                ++ ConsoleLog "Found SQL migration files (sorted by date):"
                   :: PromptSelect (pc_yellow h "Select a migration:")
                        (flaggedChoice h first :: map (plainChoice h) others)
                        (Some (path first))
                   :: more)%list).
  { unfold selectMigration, promptSelect. fold folder. script_simpl.
    rewrite Hdir. apply Nat.eqb_neq in Hlen. rewrite Hlen.
    rewrite Hstats. rewrite Hsorted. rewrite migrationChoices_cons.
    script_simpl. cbn [option_map hd_error].
    destruct (cancelled _); script_simpl; eexists; reflexivity. }
  destruct Hrun as [more Hrun].
  exists first, others, more.
  split; [reflexivity|]. split; [exact Hrun|]. split; [exact Hperm|].
  split; [now apply sorted_newestFirst|].
  split; [rewrite <- Hsorted; apply sortByMtime_keepsOrderOfEqual|].
  apply (Permutation_Forall (Permutation_sym Hperm)).
  constructor; [lia|]. now inversion Hsort.
Qed.

(** C7, on the folder with three migrations of times 10, 30 and 10: the one
    of time 30 comes first, the two of time 10 follow in the order of the
    listing. *)
Lemma C7_migrations_newest_first_witness :
  exists first others more,
    map file_name (first :: others)
    = ["0001_b.sql"; "0000_a.sql"; "0002_c.sql"]
    /\ trace (snd (selectMigration
                     (projectHost prodApp (takePosition 0) keepDefault)
                     "/work/proj" {| out := Some "drizzle" |}
                     (emptyWorld (projectFs mixedFolder))))
       = (ConsoleLog "Found SQL migration files (sorted by date):"
          :: PromptSelect "Select a migration:"
               (flaggedChoice
                  (projectHost prodApp (takePosition 0) keepDefault) first
                :: map (plainChoice
                          (projectHost prodApp (takePosition 0) keepDefault))
                       others)
               (Some (path first))
          :: more)%list.
Proof.
  destruct (C7_migrations_newest_first
              (projectHost prodApp (takePosition 0) keepDefault)
              "/work/proj" {| out := Some "drizzle" |}
              (emptyWorld (projectFs mixedFolder))
              (allFiles := map fst mixedFolder)
              (stats :=
                 [ {| file_name := "0000_a.sql";
                      path := "/work/proj/drizzle/0000_a.sql";
                      mtime := 10 |};
                   {| file_name := "0001_b.sql";
                      path := "/work/proj/drizzle/0001_b.sql";
                      mtime := 30 |};
                   {| file_name := "0002_c.sql";
                      path := "/work/proj/drizzle/0002_c.sql";
                      mtime := 10 |} ]))
    as (first & others & more & Hsorted & Htrace & _).
  - reflexivity.
  - reflexivity.
  - discriminate.
  - exists first, others, more. split; [|exact Htrace].
    vm_compute in Hsorted. injection Hsorted as <- <-. reflexivity.
Defined.

(** ** Migration Set Resolver: a folder without migrations *)

(** The filter of [migrationParams] on one argument. *)
Lemma filter_nonEmpty (s : string) :
  filter (fun prop => negb (String.eqb prop "")) [s] = nonEmpty s.
Proof. unfold nonEmpty, truthy. cbn [filter]. now destruct (negb (s =? "")). Qed.

(** The arguments when no migration was selected. *)
Lemma migrationParams_without_file (opts : Options)
  (selectedDatabase : option D1Database)
  (selectedEnvironment : option string) :
  migrationParams opts selectedDatabase selectedEnvironment ""
  = (["wrangler"; "d1"; "execute"]
     ++ nonEmpty (match selectedDatabase with
                  | Some db => database_name db
                  | None => ""
                  end)
     ++ (if local opts then ["--local"] else [])
     ++ (if remote opts then ["--remote"] else [])
     ++ (if truthyOpt selectedEnvironment
         then ["--env";
               match selectedEnvironment with Some s => s | None => "" end]
         else [])
     ++ ["--file"])%list.
Proof.
  unfold migrationParams.
  change ["wrangler"; "d1"; "execute";
          match selectedDatabase with
          | Some db => database_name db
          | None => ""
          end;
          if local opts then "--local" else "";
          if remote opts then "--remote" else ""]
    with (["wrangler"; "d1"; "execute"]
          ++ [match selectedDatabase with
              | Some db => database_name db
              | None => ""
              end]
          ++ [if local opts then "--local" else ""]
          ++ [if remote opts then "--remote" else ""])%list.
  rewrite !filter_app, filter_nonEmpty. rewrite <- !app_assoc.
  f_equal. f_equal. f_equal; [now destruct (local opts)|].
  f_equal; [now destruct (remote opts)|].
  f_equal.
  unfold truthyOpt.
  destruct selectedEnvironment as [s|]; [|reflexivity].
  unfold truthy. destruct (String.eqb s "") eqn:E; cbn [negb]; [reflexivity|].
  cbn [filter String.eqb negb]. now rewrite E.
Qed.

(** C9: when the run gets as far as the listing of the migrations folder
    and the folder lists no entry that ends in [.sql], the script warns,
    asks for no migration, and still hands a command to the executor: the
    execute invocation for the database, the mode and the environment that
    were resolved, whose last argument is [--file], the empty path having
    been filtered out.  The run does not stop before the executor: it ends
    as the executor does, with the message of success when the command
    succeeds and with status 1 when it fails. *)
Theorem C9_no_sql_files_still_executes :
  forall (h : Host) (opts : Options) (w0 : World) (resolvedWorkdir : string)
         (drizzleConfig : DrizzleConfig)
         (selectedEnvironment : option string)
         (selectedDatabase : option D1Database) (w9 : World)
         (allFiles : list string),
    reachesListing h opts w0 resolvedWorkdir drizzleConfig selectedEnvironment
      selectedDatabase w9 ->
    readdirSync (fs w9) (migrationsFolderOf h resolvedWorkdir drizzleConfig)
    = Ok allFiles ->
    filter (fun file => endsWith file ".sql") allFiles = [] ->
    let args :=
      (["wrangler"; "d1"; "execute"]
       ++ nonEmpty (match selectedDatabase with
                    | Some db => database_name db
                    | None => ""
                    end)
       ++ (if local opts then ["--local"] else [])
       ++ (if remote opts then ["--remote"] else [])
       ++ (if truthyOpt selectedEnvironment
           then ["--env";
                 match selectedEnvironment with Some s => s | None => "" end]
           else [])
       ++ ["--file"])%list in
    let events (final : Event) :=
      [ConsolaWarn "No SQL migration files found in the migrations folder.";
       SpinnerStart "Starting migration";
       Execa "bunx" args resolvedWorkdir None;
       final] in
    selectMigration h resolvedWorkdir drizzleConfig w9
    = (Return "",
       after w9
         [ConsolaWarn
            "No SQL migration files found in the migrations folder."])
    /\ migrationParams opts selectedDatabase selectedEnvironment "" = args
    /\ isExecute (Execa "bunx" args resolvedWorkdir None) = true
    /\ last args "" = "--file"
    /\ script h opts w0
       = match execa h "bunx" args resolvedWorkdir None (fs w9) with
         | Ok f' =>
             (Return tt,
              {| fs := f';
                 trace :=
                   (trace w9
                    ++ events (SpinnerSuccess "Successfully migrated!"))%list
              |})
         | Err _ =>
             (Exited 1,
              after w9 (events (ConsolaError "Migration cancelled: ")))
         end.
Proof.
  intros h opts w0 wd dc env db w9 allFiles Hreach Hdir Hnone args events.
  assert (Hselect :
            selectMigration h wd dc w9
            = (Return "",
               after w9
                 [ConsolaWarn
                    "No SQL migration files found in the migrations folder."])).
  { unfold selectMigration. script_simpl. rewrite Hdir, Hnone.
    script_simpl. reflexivity. }
  assert (Hargs : migrationParams opts db env "" = args)
    by apply migrationParams_without_file.
  split; [exact Hselect|]. split; [exact Hargs|].
  split; [reflexivity|]. split.
  - unfold args. rewrite !app_assoc. apply last_last.
  - destruct Hreach
      as (w1 & w2 & cp & w3 & wc & w4 & dp & w5 & w6 & w7 & w8
          & H1 & H2 & H3 & H4 & H5 & H6 & H7 & H8 & H9).
    unfold script.
    rewrite (bind_Return _ _ _ H1), (bind_Return _ _ _ H2),
      (bind_Return _ _ _ H3), (bind_Return _ _ _ H4), (bind_Return _ _ _ H5),
      (bind_Return _ _ _ H6), (bind_Return _ _ _ H7), (bind_Return _ _ _ H8),
      (bind_Return _ _ _ H9), (bind_Return _ _ _ Hselect).
    unfold executeMigration, execaM. rewrite Hargs. script_simpl.
    subst events. cbv beta.
    destruct (execa h "bunx" args wd None (fs w9)); script_simpl; reflexivity.
Qed.

(** C9, on the project whose migrations folder holds a README and a
    directory only: the whole run. *)
Lemma C9_no_sql_files_witness :
  script (projectHost prodApp (takePosition 0) keepDefault) remoteInProj
    (emptyWorld (projectFs noSqlFolder))
  = (Return tt,
     {| fs := projectFs noSqlFolder;
        trace :=
          [PromptConfirm "Want to create a new migration?" false;
           ConsolaWarn "No SQL migration files found in the migrations folder.";
           SpinnerStart "Starting migration";
           Execa "bunx"
             ["wrangler"; "d1"; "execute"; "app"; "--remote"; "--env"; "prod";
              "--file"]
             "/work/proj" None;
           SpinnerSuccess "Successfully migrated!"] |}).
Proof.
  assert (Hreach :
            reachesListing (projectHost prodApp (takePosition 0) keepDefault)
              remoteInProj (emptyWorld (projectFs noSqlFolder))
              "/work/proj" {| out := Some "drizzle" |} (Some "prod")
              (Some appDb)
              (after (emptyWorld (projectFs noSqlFolder))
                 [PromptConfirm "Want to create a new migration?" false])).
  { unfold reachesListing.
    exists (emptyWorld (projectFs noSqlFolder)),
      (emptyWorld (projectFs noSqlFolder)), "/work/proj/wrangler.toml",
      (emptyWorld (projectFs noSqlFolder)), prodApp,
      (emptyWorld (projectFs noSqlFolder)), "/work/proj/drizzle.config.ts",
      (emptyWorld (projectFs noSqlFolder)),
      (emptyWorld (projectFs noSqlFolder)),
      (emptyWorld (projectFs noSqlFolder)),
      (emptyWorld (projectFs noSqlFolder)).
    repeat split. }
  exact (proj2 (proj2 (proj2 (proj2
           (C9_no_sql_files_still_executes (allFiles := map fst noSqlFolder)
              Hreach eq_refl eq_refl))))).
Defined.

(** The whole run on that project: one confirmation, the warning, and the
    execute invocation that ends with [--file]. *)
Lemma run_without_sql_files :
  run (projectHost prodApp (takePosition 0) keepDefault) remoteInProj
      (projectFs noSqlFolder)
  = (Return tt,
     [PromptConfirm "Want to create a new migration?" false;
      ConsolaWarn "No SQL migration files found in the migrations folder.";
      SpinnerStart "Starting migration";
      Execa "bunx"
        ["wrangler"; "d1"; "execute"; "app"; "--remote"; "--env"; "prod";
         "--file"]
        "/work/proj" None;
      SpinnerSuccess "Successfully migrated!"]).
Proof. vm_compute. reflexivity. Qed.

(* ------------------------------------------------------------------ *)
(** * Further properties *)

Unset Implicit Arguments.

(** ** The passes of [parseJsonc] *)

Section JsoncPasses.

Import JsRegExp.
Local Open Scope list_scope.

Lemma matcher_Star g r' st k :
  matcher (Star g r') st k = starLoop g r' k (List.length (rest st)) st.
Proof. reflexivity. Qed.

Lemma Nat_eqb_succ n : Nat.eqb (S n) n = false.
Proof. apply Nat.eqb_neq. lia. Qed.

Lemma starLoop_greedy_max p k body : forall tail n g fuel x,
  forallb p body = true ->
  stopsAt p tail ->
  List.length body <= fuel ->
  k (mkState tail (n + List.length body) g) = Some x ->
  starLoop true (Cls p) k fuel (mkState (body ++ tail) n g) = Some x.
Proof.
  induction body as [|c body IH]; intros tail n g fuel x Hp Hstop Hfuel Hk.
  - cbn [List.length app] in *. rewrite Nat.add_0_r in Hk.
    destruct fuel as [|fuel]; [exact Hk|].
    destruct tail as [|t tail]; loop_step; [exact Hk|].
    cbn [stopsAt] in Hstop. rewrite Hstop. exact Hk.
  - cbn [forallb] in Hp. apply andb_prop in Hp as [Hc Hp].
    cbn [List.length] in *.
    destruct fuel as [|fuel]; [lia|].
    loop_step. rewrite Hc, Nat_eqb_succ.
    fold (mkState (body ++ tail) (S n) g).
    rewrite (IH tail (S n) g fuel x); auto; [lia|].
    now rewrite Nat.add_succ_r in Hk.
Qed.

Lemma starLoop_greedy_none p k body : forall tail n g fuel,
  forallb p body = true ->
  stopsAt p tail ->
  (forall b1 b2, body = b1 ++ b2 ->
     k (mkState (b2 ++ tail) (n + List.length b1) g) = None) ->
  starLoop true (Cls p) k fuel (mkState (body ++ tail) n g) = None.
Proof.
  induction body as [|c body IH]; intros tail n g fuel Hp Hstop Hk.
  - pose proof (Hk [] [] eq_refl) as H0.
    cbn [List.length app] in *. rewrite Nat.add_0_r in H0.
    destruct fuel as [|fuel]; [exact H0|].
    destruct tail as [|t tail]; loop_step; [exact H0|].
    cbn [stopsAt] in Hstop. rewrite Hstop. exact H0.
  - cbn [forallb] in Hp. apply andb_prop in Hp as [Hc Hp].
    pose proof (Hk [] (c :: body) eq_refl) as H0.
    cbn [List.length app] in H0. rewrite Nat.add_0_r in H0.
    destruct fuel as [|fuel]; [exact H0|].
    loop_step. rewrite Hc, Nat_eqb_succ.
    fold (mkState (body ++ tail) (S n) g).
    fold (mkState (c :: body ++ tail) n g).
    rewrite (IH tail (S n) g fuel); auto.
    intros b1 b2 Hb. specialize (Hk (c :: b1) b2).
    cbn [List.length app] in Hk.
    rewrite Nat.add_succ_r in Hk. apply Hk. now rewrite Hb.
Qed.

Lemma starLoop_lazy_first p k body : forall tail n g fuel x,
  forallb p body = true ->
  (forall b1 b2, body = b1 ++ b2 -> b2 <> [] ->
     k (mkState (b2 ++ tail) (n + List.length b1) g) = None) ->
  List.length body <= fuel ->
  k (mkState tail (n + List.length body) g) = Some x ->
  starLoop false (Cls p) k fuel (mkState (body ++ tail) n g) = Some x.
Proof.
  induction body as [|c body IH]; intros tail n g fuel x Hp Hnone Hfuel Hk.
  - cbn [List.length app] in *. rewrite Nat.add_0_r in Hk.
    destruct fuel as [|fuel]; [exact Hk|].
    loop_step. fold (mkState tail n g). now rewrite Hk.
  - cbn [forallb] in Hp. apply andb_prop in Hp as [Hc Hp].
    cbn [List.length] in *.
    destruct fuel as [|fuel]; [lia|].
    pose proof (Hnone [] (c :: body) eq_refl ltac:(discriminate)) as H0.
    cbn [List.length app] in H0. rewrite Nat.add_0_r in H0.
    loop_step. fold (mkState (c :: body ++ tail) n g). rewrite H0.
    rewrite Hc, Nat_eqb_succ.
    fold (mkState (body ++ tail) (S n) g).
    apply (IH tail (S n) g fuel x); auto.
    + intros b1 b2 Hb Hb2. specialize (Hnone (c :: b1) b2).
      cbn [List.length app] in Hnone.
      rewrite Nat.add_succ_r in Hnone. apply Hnone; auto. now rewrite Hb.
    + lia.
    + now rewrite Nat.add_succ_r in Hk.
Qed.

Lemma starLoop_lazy_none p k s : forall n g fuel,
  (forall b1 b2, s = b1 ++ b2 ->
     k (mkState b2 (n + List.length b1) g) = None) ->
  starLoop false (Cls p) k fuel (mkState s n g) = None.
Proof.
  induction s as [|c s IH]; intros n g fuel Hk.
  - pose proof (Hk [] [] eq_refl) as H0.
    cbn [List.length app] in H0. rewrite Nat.add_0_r in H0.
    destruct fuel as [|fuel]; [exact H0|].
    loop_step. fold (mkState [] n g). now rewrite H0.
  - pose proof (Hk [] (c :: s) eq_refl) as H0.
    cbn [List.length app] in H0. rewrite Nat.add_0_r in H0.
    destruct fuel as [|fuel]; [exact H0|].
    loop_step. fold (mkState (c :: s) n g). rewrite H0.
    destruct (p c); [|reflexivity].
    rewrite Nat_eqb_succ. fold (mkState s (S n) g).
    apply (IH (S n) g fuel).
    intros b1 b2 Hb. specialize (Hk (c :: b1) b2).
    cbn [List.length app] in Hk.
    rewrite Nat.add_succ_r in Hk. apply Hk. now rewrite Hb.
Qed.

Lemma noPair_tail a b c s : noPair a b (c :: s) = true -> noPair a b s = true.
Proof.
  destruct s as [|d s]; [reflexivity|]. cbn [noPair].
  intros H. now apply andb_prop in H as [_ H].
Qed.

Lemma noPair_suffix a b b1 b2 :
  noPair a b (b1 ++ b2) = true -> noPair a b b2 = true.
Proof.
  induction b1 as [|c b1 IH]; [auto|]. intros H. apply IH.
  now apply (noPair_tail a b c).
Qed.

Lemma noPair_head a b y s : noPair a b (a :: y :: s) = true -> y <> b.
Proof.
  cbn [noPair]. intros H ->. apply andb_prop in H as [H _].
  now rewrite !N.eqb_refl in H.
Qed.

Lemma noClose_tail c s : noClose (c :: s) = true -> noClose s = true.
Proof. apply noPair_tail. Qed.

Lemma noClose_suffix b1 b2 : noClose (b1 ++ b2) = true -> noClose b2 = true.
Proof. apply noPair_suffix. Qed.

Lemma matcher_Seq r1 r2 st k :
  matcher (Seq r1 r2) st k = matcher r1 st (fun st1 => matcher r2 st1 k).
Proof. reflexivity. Qed.

Lemma matcher_Chr_hit c s n g k :
  matcher (Chr c) (mkState (c :: s) n g) k = k (mkState s (S n) g).
Proof. unfold mkState. cbn [matcher step1 rest consumed group1]. now rewrite N.eqb_refl. Qed.

Lemma matcher_Chr_miss c d s n g k :
  d <> c -> matcher (Chr c) (mkState (d :: s) n g) k = None.
Proof.
  intros H. unfold mkState. cbn [matcher step1 rest]. 
  destruct (N.eqb_spec c d) as [->|_]; [contradiction|reflexivity].
Qed.

Lemma matcher_Chr_nil c n g k : matcher (Chr c) (mkState [] n g) k = None.
Proof. reflexivity. Qed.

Lemma matcher_Star_Cls g p st k :
  matcher (Star g (Cls p)) st k = starLoop g (Cls p) k (List.length (rest st)) st.
Proof. reflexivity. Qed.

Lemma matcher_Star_Dot st k :
  matcher (Star true Dot) st k
  = starLoop true (Cls notLineTerminator) k (List.length (rest st)) st.
Proof. reflexivity. Qed.

Lemma exec_Chr_miss c r d s :
  d <> c -> exec (Seq (Chr c) r) (d :: s) = None.
Proof.
  intros H. unfold exec. fold (mkState (d :: s) 0 None).
  now rewrite matcher_Seq, matcher_Chr_miss.
Qed.

Lemma exec_Chr_nil c r : exec (Seq (Chr c) r) [] = None.
Proof. reflexivity. Qed.

Lemma replace_nomatch r f c s :
  exec r (c :: s) = None -> replace r f (c :: s) = c :: replace r f s.
Proof. intros H. unfold replace. cbn [replaceFrom]. now rewrite H. Qed.

Lemma replaceFrom_app r f a b :
  replaceFrom r f (List.length a) (a ++ b) = replaceFrom r f 0 b.
Proof.
  induction a as [|c a IH]; [reflexivity|]. exact IH.
Qed.

Lemma replace_match r f c a b g :
  exec r (c :: a ++ b) = Some (S (List.length a), g) ->
  replace r f (c :: a ++ b) = (f g ++ replace r f b)%list.
Proof.
  intros H. unfold replace. cbn [replaceFrom]. rewrite H.
  now rewrite replaceFrom_app.
Qed.

Lemma replace_nil_Chr c r f : replace (Seq (Chr c) r) f [] = [].
Proof. reflexivity. Qed.

Lemma replace_prefix c r f pre s :
  ~ In c pre ->
  replace (Seq (Chr c) r) f (pre ++ s) = (pre ++ replace (Seq (Chr c) r) f s)%list.
Proof.
  induction pre as [|d pre IH]; intros Hin; [reflexivity|].
  cbn [app]. rewrite replace_nomatch.
  - rewrite IH; [reflexivity|]. intros H. apply Hin. now right.
  - apply exec_Chr_miss. intros ->. apply Hin. now left.
Qed.

Lemma replace_prefix_gen r f pre s :
  (forall p1 c p2, pre = (p1 ++ c :: p2)%list -> exec r (c :: p2 ++ s) = None) ->
  replace r f (pre ++ s) = (pre ++ replace r f s)%list.
Proof.
  induction pre as [|d pre IH]; intros H; [reflexivity|].
  cbn [app]. rewrite replace_nomatch by apply (H [] d pre eq_refl).
  rewrite IH; [reflexivity|].
  intros p1 c p2 Hsplit. apply (H (d :: p1) c p2). now rewrite Hsplit.
Qed.

Lemma replace_without c r f s :
  ~ In c s -> replace (Seq (Chr c) r) f s = s.
Proof.
  intros H. rewrite <- (app_nil_r s) at 1. rewrite replace_prefix; auto.
  now rewrite replace_nil_Chr, app_nil_r.
Qed.

Lemma exec_singleLineComment body tail :
  forallb notLineTerminator body = true ->
  stopsAt notLineTerminator tail ->
  exec ParseWranglerConfig.singleLineComment (47 :: 47 :: body ++ tail)%N
  = Some (2 + List.length body, None).
Proof.
  intros Hbody Htail. unfold exec, ParseWranglerConfig.singleLineComment.
  fold (mkState (47 :: 47 :: body ++ tail)%N 0 None).
  rewrite matcher_Seq, matcher_Chr_hit, matcher_Seq, matcher_Chr_hit.
  rewrite matcher_Seq, matcher_Star_Dot.
  unfold mkState at 1. cbn [rest].
  rewrite (starLoop_greedy_max notLineTerminator _ body tail 2 None _
             (mkState tail (2 + List.length body) None)); auto.
  - rewrite length_app. lia.
  - unfold mkState. cbn [matcher rest].
    destruct tail as [|t tail]; [reflexivity|].
    cbn [stopsAt] in Htail. unfold notLineTerminator in Htail.
    apply negb_false_iff in Htail. now rewrite Htail.
Qed.

Lemma exec_singleLineComment_prefix p1 c p2 s :
  noPair 47%N 47%N ((p1 ++ c :: p2) ++ [47%N]) = true ->
  exec ParseWranglerConfig.singleLineComment (c :: p2 ++ s) = None.
Proof.
  intros H. rewrite <- app_assoc in H. apply noPair_suffix in H.
  destruct (N.eq_dec c 47) as [->|Hc]; [|now apply exec_Chr_miss].
  unfold exec, ParseWranglerConfig.singleLineComment.
  fold (mkState (47%N :: p2 ++ s) 0 None).
  rewrite matcher_Seq, matcher_Chr_hit, matcher_Seq.
  destruct p2 as [|d p2]; cbn [app] in *.
  - now apply noPair_head in H.
  - rewrite matcher_Chr_miss; [reflexivity|]. now apply noPair_head in H.
Qed.

Lemma singleLineComment_prefix pre s :
  noPair 47%N 47%N (pre ++ [47%N]) = true ->
  replace ParseWranglerConfig.singleLineComment withEmpty (pre ++ s)
  = (pre ++ replace ParseWranglerConfig.singleLineComment withEmpty s)%list.
Proof.
  intros Hpre. apply replace_prefix_gen.
  intros p1 c p2 ->. now apply (exec_singleLineComment_prefix p1).
Qed.

Lemma singleLineComment_removed pre body tail :
  noPair 47%N 47%N (pre ++ [47%N]) = true ->
  forallb notLineTerminator body = true ->
  stopsAt notLineTerminator tail ->
  replace ParseWranglerConfig.singleLineComment withEmpty
    (pre ++ 47 :: 47 :: body ++ tail)%N
  = (pre ++ replace ParseWranglerConfig.singleLineComment withEmpty tail)%list.
Proof.
  intros Hpre Hbody Htail.
  rewrite singleLineComment_prefix by exact Hpre. f_equal.
  change (47 :: 47 :: body ++ tail)%N with (47 :: (47 :: body) ++ tail)%N.
  rewrite (replace_match _ _ _ (47%N :: body) tail None).
  - reflexivity.
  - cbn [List.length app]. now apply exec_singleLineComment.
Qed.

Lemma forallb_anyChar s : forallb anyChar s = true.
Proof.
  induction s as [|c s IH]; [reflexivity|]. cbn [forallb]. rewrite IH.
  unfold anyChar. now destruct (isWhiteSpace c).
Qed.

Lemma closer_hit s n g k :
  matcher closer (mkState (42 :: 47 :: s)%N n g) k = k (mkState s (S (S n)) g).
Proof. unfold closer. now rewrite matcher_Seq, !matcher_Chr_hit. Qed.

(** No closer at the head of [b2 ++ 42 :: t] when [b2] is non-empty and free of
    closers. *)
Lemma closer_miss_inside b2 t n g k :
  b2 <> [] -> noClose b2 = true ->
  matcher closer (mkState (b2 ++ 42%N :: t) n g) k = None.
Proof.
  intros Hne Hb. destruct b2 as [|c b2]; [contradiction|].
  unfold closer. rewrite matcher_Seq. cbn [app].
  destruct (N.eq_dec c 42) as [->|Hc]; [|now apply matcher_Chr_miss].
  rewrite matcher_Chr_hit.
  destruct b2 as [|d b2]; cbn [app].
  - apply matcher_Chr_miss. discriminate.
  - apply matcher_Chr_miss. now apply noPair_head in Hb.
Qed.

Lemma closer_miss s n g k :
  noClose s = true -> matcher closer (mkState s n g) k = None.
Proof.
  intros Hs. unfold closer. rewrite matcher_Seq.
  destruct s as [|c s]; [apply matcher_Chr_nil|].
  destruct (N.eq_dec c 42) as [->|Hc]; [|now apply matcher_Chr_miss].
  rewrite matcher_Chr_hit.
  destruct s as [|d s]; [apply matcher_Chr_nil|].
  apply matcher_Chr_miss. now apply noPair_head in Hs.
Qed.

Lemma exec_multiLineComment body rest0 :
  noClose body = true ->
  exec ParseWranglerConfig.multiLineComment
    (47 :: 42 :: body ++ 42 :: 47 :: rest0)%N
  = Some (4 + List.length body, None).
Proof.
  intros Hbody. unfold exec, ParseWranglerConfig.multiLineComment.
  fold (mkState (47 :: 42 :: body ++ 42 :: 47 :: rest0)%N 0 None).
  rewrite matcher_Seq, matcher_Chr_hit, matcher_Seq, matcher_Chr_hit.
  rewrite matcher_Seq. fold anyChar. fold closer.
  rewrite matcher_Star_Cls. unfold mkState at 1. cbn [rest].
  rewrite (starLoop_lazy_first anyChar _ body (42 :: 47 :: rest0)%N 2 None _
             (mkState rest0 (4 + List.length body) None)).
  - reflexivity.
  - apply forallb_anyChar.
  - intros b1 b2 Hsplit Hne. apply closer_miss_inside; auto.
    apply (noClose_suffix b1). now rewrite <- Hsplit.
  - rewrite length_app. lia.
  - rewrite closer_hit. reflexivity.
Qed.

Lemma exec_multiLineComment_open body :
  noClose body = true ->
  exec ParseWranglerConfig.multiLineComment (47 :: 42 :: body)%N = None.
Proof.
  intros Hbody. unfold exec, ParseWranglerConfig.multiLineComment.
  fold (mkState (47 :: 42 :: body)%N 0 None).
  rewrite matcher_Seq, matcher_Chr_hit, matcher_Seq, matcher_Chr_hit.
  rewrite matcher_Seq. fold anyChar. fold closer.
  rewrite matcher_Star_Cls. unfold mkState at 1. cbn [rest].
  rewrite (starLoop_lazy_none anyChar _ body 2 None); [reflexivity|].
  intros b1 b2 Hsplit. apply closer_miss.
  apply (noClose_suffix b1). now rewrite <- Hsplit.
Qed.

Lemma exec_multiLineComment_none s :
  noClose s = true -> exec ParseWranglerConfig.multiLineComment s = None.
Proof.
  intros Hs. destruct s as [|c s]; [reflexivity|].
  destruct (N.eq_dec c 47) as [->|Hc];
    [|now apply exec_Chr_miss].
  destruct s as [|d s]; [reflexivity|].
  destruct (N.eq_dec d 42) as [->|Hd].
  - apply exec_multiLineComment_open.
    now apply (noClose_suffix [47; 42]%N).
  - unfold exec, ParseWranglerConfig.multiLineComment.
    fold (mkState (47 :: d :: s)%N 0 None).
    rewrite matcher_Seq, matcher_Chr_hit, matcher_Seq.
    now rewrite matcher_Chr_miss.
Qed.

Lemma multiLineComment_without_closer s :
  noClose s = true ->
  replace ParseWranglerConfig.multiLineComment withEmpty s = s.
Proof.
  induction s as [|c s IH]; intros Hs; [reflexivity|].
  rewrite replace_nomatch by now apply exec_multiLineComment_none.
  rewrite IH; [reflexivity|]. now apply (noClose_tail c).
Qed.

Lemma exec_multiLineComment_prefix p1 c p2 s :
  noPair 47%N 42%N (p1 ++ c :: p2) = true ->
  exec ParseWranglerConfig.multiLineComment (c :: p2 ++ 47%N :: s) = None.
Proof.
  intros H. apply noPair_suffix in H.
  destruct (N.eq_dec c 47) as [->|Hc]; [|now apply exec_Chr_miss].
  unfold exec, ParseWranglerConfig.multiLineComment.
  fold (mkState (47%N :: p2 ++ 47%N :: s) 0 None).
  rewrite matcher_Seq, matcher_Chr_hit, matcher_Seq.
  destruct p2 as [|d p2]; cbn [app] in *.
  - rewrite matcher_Chr_miss; [reflexivity|discriminate].
  - rewrite matcher_Chr_miss; [reflexivity|]. now apply noPair_head in H.
Qed.

(** X2: the block-comment pass deletes a comment from its [/*] to the first
    [*/] after it and goes on behind it, when the text before the comment
    contains no [/*]; what stands between the two marks does not matter, be
    it line breaks or quotes. *)
Theorem block_comment_is_removed pre body rest0 :
  noPair 47%N 42%N pre = true ->
  noClose body = true ->
  replace ParseWranglerConfig.multiLineComment withEmpty
    (pre ++ 47 :: 42 :: body ++ 42 :: 47 :: rest0)%N
  = (pre ++ replace ParseWranglerConfig.multiLineComment withEmpty rest0)%list.
Proof.
  intros Hpre Hbody.
  rewrite replace_prefix_gen.
  - f_equal.
    assert (Hexec := exec_multiLineComment body rest0 Hbody).
    replace (47 :: 42 :: body ++ 42 :: 47 :: rest0)%N
      with (47 :: (42 :: body ++ [42; 47]) ++ rest0)%N in *
      by (cbn [app]; now rewrite <- app_assoc).
    rewrite (replace_match _ _ _ (42 :: body ++ [42; 47])%N rest0 None).
    + reflexivity.
    + cbn [List.length]. rewrite length_app. cbn [List.length].
      replace (S (S (List.length body + 2))) with (4 + List.length body)
        by lia.
      exact Hexec.
  - intros p1 c p2 ->. now apply (exec_multiLineComment_prefix p1).
Qed.

Lemma exec_singleLineComment_none s :
  noPair 47%N 47%N s = true ->
  exec ParseWranglerConfig.singleLineComment s = None.
Proof.
  intros Hs. destruct s as [|c s]; [reflexivity|].
  destruct (N.eq_dec c 47) as [->|Hc]; [|now apply exec_Chr_miss].
  destruct s as [|d s]; [reflexivity|].
  unfold exec, ParseWranglerConfig.singleLineComment.
  fold (mkState (47 :: d :: s)%N 0 None).
  rewrite matcher_Seq, matcher_Chr_hit, matcher_Seq.
  rewrite matcher_Chr_miss; [reflexivity|]. now apply noPair_head in Hs.
Qed.

Lemma singleLineComment_without_pair s :
  noPair 47%N 47%N s = true ->
  replace ParseWranglerConfig.singleLineComment withEmpty s = s.
Proof.
  induction s as [|c s IH]; intros Hs; [reflexivity|].
  rewrite replace_nomatch by now apply exec_singleLineComment_none.
  rewrite IH; [reflexivity|]. now apply (noPair_tail _ _ c).
Qed.

Lemma multiLineComment_unterminated pre body :
  noPair 47%N 42%N pre = true ->
  noClose body = true ->
  replace ParseWranglerConfig.multiLineComment withEmpty
    (pre ++ 47 :: 42 :: body)%N
  = (pre ++ 47 :: 42 :: body)%N.
Proof.
  intros Hpre Hbody.
  rewrite replace_prefix_gen.
  - f_equal.
    rewrite replace_nomatch by now apply exec_multiLineComment_open.
    f_equal.
    rewrite replace_nomatch by (apply exec_Chr_miss; discriminate).
    f_equal. now apply multiLineComment_without_closer.
  - intros p1 c p2 ->. now apply (exec_multiLineComment_prefix p1).
Qed.

(** X3: a [/*] that no [*/] follows is not a comment.  In a text that has
    no [//] and no [/*] before it, neither comment pass changes anything:
    what [JSON.parse] receives is the text with the [/*] in it, after the
    trailing-comma pass only, and the very text when it has no comma. *)
Theorem unterminated_block_comment_is_kept :
  forall pre body : jsstring,
    noPair 47%N 47%N (pre ++ 47 :: 42 :: body)%N = true ->
    noPair 47%N 42%N pre = true ->
    noClose body = true ->
    ParseWranglerConfig.cleaned (pre ++ 47 :: 42 :: body)%N
    = replace ParseWranglerConfig.trailingComma withGroup1
        (pre ++ 47 :: 42 :: body)%N
    /\ (~ In 44%N (pre ++ 47 :: 42 :: body)%N ->
        ParseWranglerConfig.cleaned (pre ++ 47 :: 42 :: body)%N
        = (pre ++ 47 :: 42 :: body)%N).
Proof.
  intros pre body Hline Hpre Hbody.
  assert (Hpasses :
            ParseWranglerConfig.cleaned (pre ++ 47 :: 42 :: body)%N
            = replace ParseWranglerConfig.trailingComma withGroup1
                (pre ++ 47 :: 42 :: body)%N).
  { unfold ParseWranglerConfig.cleaned. cbv zeta.
    rewrite singleLineComment_without_pair by exact Hline.
    now rewrite multiLineComment_unterminated. }
  split; [exact Hpasses|].
  intros Hcomma. rewrite Hpasses.
  unfold ParseWranglerConfig.trailingComma.
  now rewrite replace_without by exact Hcomma.
Qed.

Lemma isClosing_not_space c : isClosing c = true -> isWhiteSpace c = false.
Proof.
  unfold isClosing. intros H. apply orb_prop in H as [H|H];
    apply N.eqb_eq in H; subst c; reflexivity.
Qed.

Lemma isWhiteSpace_not_closing c : isWhiteSpace c = true -> isClosing c = false.
Proof.
  intros H. destruct (isClosing c) eqn:E; [|reflexivity].
  apply isClosing_not_space in E. congruence.
Qed.

Lemma matcher_Grp r st k :
  matcher (Grp r) st k
  = matcher r st (fun st1 =>
      k {| rest := rest st1; consumed := consumed st1;
           group1 := Some (firstn (consumed st1 - consumed st) (rest st)) |}).
Proof. reflexivity. Qed.

Lemma matcher_Cls_hit p c s n g k :
  p c = true -> matcher (Cls p) (mkState (c :: s) n g) k = k (mkState s (S n) g).
Proof. intros H. unfold mkState. cbn [matcher step1 rest consumed group1]. now rewrite H. Qed.

Lemma matcher_Cls_miss p c s n g k :
  p c = false -> matcher (Cls p) (mkState (c :: s) n g) k = None.
Proof. intros H. unfold mkState. cbn [matcher step1 rest]. now rewrite H. Qed.

Lemma matcher_Cls_nil p n g k : matcher (Cls p) (mkState [] n g) k = None.
Proof. reflexivity. Qed.

Lemma firstn_app_exact {A} (a : list A) (c : A) (b : list A) :
  firstn (S (List.length a)) (a ++ c :: b) = (a ++ [c])%list.
Proof.
  rewrite firstn_app, firstn_all2 by lia.
  replace (S (List.length a) - List.length a) with 1 by lia. reflexivity.
Qed.

Lemma exec_trailingComma ws c rest0 :
  forallb isWhiteSpace ws = true ->
  isClosing c = true ->
  exec ParseWranglerConfig.trailingComma (44%N :: ws ++ c :: rest0)
  = Some (2 + List.length ws, Some (ws ++ [c])%list).
Proof.
  intros Hws Hc. unfold exec, ParseWranglerConfig.trailingComma.
  fold (mkState (44%N :: ws ++ c :: rest0) 0 None).
  rewrite matcher_Seq, matcher_Chr_hit, matcher_Grp, matcher_Seq.
  fold isClosing. rewrite matcher_Star_Cls. unfold mkState at 1. cbn [rest consumed].
  rewrite (starLoop_greedy_max isWhiteSpace _ ws (c :: rest0) 1 None _
             (mkState rest0 (2 + List.length ws)
                (Some (ws ++ [c])%list))); auto.
  - cbn [stopsAt]. now apply isClosing_not_space.
  - unfold mkState. cbn [rest]. rewrite length_app. lia.
  - rewrite matcher_Cls_hit by exact Hc. unfold mkState. cbn [rest consumed].
    replace (S (1 + List.length ws) - 1) with (S (List.length ws)) by lia.
    now rewrite firstn_app_exact.
Qed.

Lemma exec_trailingComma_kept ws tail :
  forallb isWhiteSpace ws = true ->
  keepsComma tail ->
  exec ParseWranglerConfig.trailingComma (44%N :: ws ++ tail) = None.
Proof.
  intros Hws Htail. unfold exec, ParseWranglerConfig.trailingComma.
  fold (mkState (44%N :: ws ++ tail) 0 None).
  rewrite matcher_Seq, matcher_Chr_hit, matcher_Grp, matcher_Seq.
  fold isClosing. rewrite matcher_Star_Cls. unfold mkState at 1. cbn [rest consumed].
  rewrite (starLoop_greedy_none isWhiteSpace _ ws tail 1 None); auto.
  - destruct tail as [|d tail]; [exact I|]. apply Htail.
  - intros b1 b2 Hsplit. destruct b2 as [|w b2]; cbn [app].
    + destruct tail as [|d tail]; [apply matcher_Cls_nil|].
      apply matcher_Cls_miss, Htail.
    + apply matcher_Cls_miss. apply isWhiteSpace_not_closing.
      rewrite Hsplit, forallb_app in Hws. apply andb_prop in Hws as [_ Hws].
      cbn [forallb] in Hws. now apply andb_prop in Hws as [Hws _].
Qed.

Lemma trailingComma_removed pre ws c rest0 :
  ~ In 44%N pre ->
  forallb isWhiteSpace ws = true ->
  isClosing c = true ->
  replace ParseWranglerConfig.trailingComma withGroup1
    (pre ++ 44%N :: ws ++ c :: rest0)
  = (pre ++ ws ++ c
     :: replace ParseWranglerConfig.trailingComma withGroup1 rest0)%list.
Proof.
  intros Hpre Hws Hc.
  unfold ParseWranglerConfig.trailingComma at 1 2.
  rewrite replace_prefix by exact Hpre. f_equal.
  fold ParseWranglerConfig.trailingComma.
  assert (Hexec := exec_trailingComma ws c rest0 Hws Hc).
  replace (44%N :: ws ++ c :: rest0)
    with (44%N :: (ws ++ [c]) ++ rest0) in *
    by (now rewrite <- app_assoc).
  rewrite (replace_match _ _ _ (ws ++ [c])%list rest0 (Some (ws ++ [c])%list)).
  - cbn [withGroup1]. now rewrite <- app_assoc.
  - rewrite length_app. cbn [List.length].
    replace (S (List.length ws + 1)) with (2 + List.length ws) by lia.
    exact Hexec.
Qed.

Lemma not_In_whitespace ws : forallb isWhiteSpace ws = true -> ~ In 44%N ws.
Proof.
  intros Hws Hin. rewrite forallb_forall in Hws. now apply Hws in Hin.
Qed.

Lemma trailingComma_kept pre ws tail :
  ~ In 44%N pre ->
  forallb isWhiteSpace ws = true ->
  keepsComma tail ->
  replace ParseWranglerConfig.trailingComma withGroup1
    (pre ++ 44%N :: ws ++ tail)
  = (pre ++ 44%N :: ws
     ++ replace ParseWranglerConfig.trailingComma withGroup1 tail)%list.
Proof.
  intros Hpre Hws Htail.
  unfold ParseWranglerConfig.trailingComma at 1.
  rewrite replace_prefix by exact Hpre. f_equal.
  fold ParseWranglerConfig.trailingComma.
  rewrite replace_nomatch by now apply exec_trailingComma_kept.
  f_equal. unfold ParseWranglerConfig.trailingComma.
  now rewrite replace_prefix by now apply not_In_whitespace.
Qed.

Lemma cleaned_without_slash s :
  ~ In 47%N s ->
  ParseWranglerConfig.cleaned s
  = replace ParseWranglerConfig.trailingComma withGroup1 s.
Proof.
  intros H. unfold ParseWranglerConfig.cleaned.
  unfold ParseWranglerConfig.singleLineComment,
    ParseWranglerConfig.multiLineComment.
  cbv zeta. rewrite (replace_without _ _ _ s H).
  now rewrite (replace_without _ _ _ s H).
Qed.

Lemma not_In_by_computation (c : char16) (s : jsstring) :
  existsb (N.eqb c) s = false -> ~ In c s.
Proof.
  intros H Hin. assert (Hex : existsb (N.eqb c) s = true).
  { apply existsb_exists. exists c. split; [exact Hin|apply N.eqb_refl]. }
  congruence.
Qed.

(** X1: [parseJsonc] hands to [JSON.parse] the same text whether a [//] and
    what follows it up to the end of the line is there or not, when the text
    before the [//] contains no [//] and does not end in a slash.  Nothing
    is asked of quotes: a [//] inside a string literal is cut in the same
    way. *)
Theorem line_comment_is_cut :
  forall pre body tail : jsstring,
    noPair 47%N 47%N (pre ++ [47%N]) = true ->
    forallb notLineTerminator body = true ->
    stopsAt notLineTerminator tail ->
    ParseWranglerConfig.cleaned (pre ++ 47%N :: 47%N :: body ++ tail)
    = ParseWranglerConfig.cleaned (pre ++ tail).
Proof.
  intros pre body tail Hpre Hbody Htail.
  unfold ParseWranglerConfig.cleaned.
  rewrite singleLineComment_removed by assumption.
  now rewrite singleLineComment_prefix by assumption.
Qed.

(** X1, on the text of the object with key u and value a//b: it is cleaned
    like its first eight code units. *)
Lemma line_comment_is_cut_witness :
  ParseWranglerConfig.cleaned urlLikeJson
  = ParseWranglerConfig.cleaned urlLikeJsonCut.
Proof.
  exact (line_comment_is_cut urlLikeJsonCut (js "b" ++ [dquote] ++ js "}") []
           eq_refl eq_refl I).
Defined.

(** X2, on an object around a comment. *)
Lemma block_comment_is_removed_witness :
  replace ParseWranglerConfig.multiLineComment withEmpty commentedObject
  = js "{  }".
Proof.
  exact (eq_trans
           (block_comment_is_removed (js "{ ") (js " x ") (js " }")
              eq_refl eq_refl)
           eq_refl).
Defined.

(** X3, on an object with a comment that is not closed. *)
Lemma unterminated_block_comment_is_kept_witness :
  ParseWranglerConfig.cleaned openComment = openComment.
Proof.
  exact (proj2 (unterminated_block_comment_is_kept (js "{ ") (js " x }")
                  eq_refl eq_refl eq_refl)
           (not_In_by_computation 44%N openComment eq_refl)).
Defined.

(** X4: in a text without any slash, a comma that is followed by white space
    and a closing brace or bracket is deleted, the white space and the
    bracket stay, and the cleaning goes on behind the bracket. *)
Theorem trailing_comma_is_removed :
  forall (pre ws : jsstring) (c : char16) (rest0 : jsstring),
    ~ In 47%N (pre ++ 44%N :: ws ++ c :: rest0) ->
    ~ In 44%N pre ->
    forallb isWhiteSpace ws = true ->
    isClosing c = true ->
    ParseWranglerConfig.cleaned (pre ++ 44%N :: ws ++ c :: rest0)
    = pre ++ ws ++ c :: ParseWranglerConfig.cleaned rest0.
Proof.
  intros pre ws c rest0 Hslash Hpre Hws Hc.
  rewrite cleaned_without_slash by exact Hslash.
  rewrite cleaned_without_slash.
  - now apply trailingComma_removed.
  - intros Hin. apply Hslash. apply in_or_app. right. right.
    apply in_or_app. right. now right.
Qed.

(** X4, on an array whose last comma is a trailing one; the comma between
    its elements stays (see X5). *)
Lemma trailing_comma_is_removed_witness :
  ParseWranglerConfig.cleaned (js "2, ]") = js "2 ]".
Proof.
  exact (trailing_comma_is_removed (js "2") (js " ") 93%N []
           (not_In_by_computation 47%N (js "2, ]") eq_refl)
           (not_In_by_computation 44%N (js "2") eq_refl)
           eq_refl eq_refl).
Defined.

(** X5: in a text without any slash, a comma that is followed by white space
    and then by the end of the text or by anything but white space and a
    closing bracket stays, and the cleaning goes on behind the white
    space. *)
Theorem other_comma_is_kept :
  forall pre ws tail : jsstring,
    ~ In 47%N (pre ++ 44%N :: ws ++ tail) ->
    ~ In 44%N pre ->
    forallb isWhiteSpace ws = true ->
    keepsComma tail ->
    ParseWranglerConfig.cleaned (pre ++ 44%N :: ws ++ tail)
    = pre ++ 44%N :: ws ++ ParseWranglerConfig.cleaned tail.
Proof.
  intros pre ws tail Hslash Hpre Hws Htail.
  rewrite cleaned_without_slash by exact Hslash.
  rewrite cleaned_without_slash.
  - now apply trailingComma_kept.
  - intros Hin. apply Hslash. apply in_or_app. right. right.
    apply in_or_app. now right.
Qed.

(** X5, on an array of two elements. *)
Lemma other_comma_is_kept_witness :
  ParseWranglerConfig.cleaned arrayOfTwo = arrayOfTwo.
Proof.
  exact (other_comma_is_kept (js "[1") (js " ") (js "2]")
           (not_In_by_computation 47%N arrayOfTwo eq_refl)
           (not_In_by_computation 44%N (js "[1") eq_refl)
           eq_refl (conj eq_refl eq_refl)).
Defined.

(** X6: a text without any slash and any comma reaches [JSON.parse]
    unchanged. *)
Theorem text_without_slash_and_comma_is_unchanged :
  forall s : jsstring,
    ~ In 47%N s -> ~ In 44%N s -> ParseWranglerConfig.cleaned s = s.
Proof.
  intros s Hslash Hcomma.
  rewrite cleaned_without_slash by exact Hslash.
  unfold ParseWranglerConfig.trailingComma.
  now rewrite replace_without by exact Hcomma.
Qed.

(** X6, on a small object. *)
Lemma text_without_slash_and_comma_witness :
  ParseWranglerConfig.cleaned (js "{ }") = js "{ }".
Proof.
  exact (text_without_slash_and_comma_is_unchanged (js "{ }")
           (not_In_by_computation 47%N (js "{ }") eq_refl)
           (not_In_by_computation 44%N (js "{ }") eq_refl)).
Defined.

End JsoncPasses.

(** ** Extensions and dispatch of the parsers *)

Lemma split_not_nil sep s : split sep s <> [].
Proof.
  destruct s as [|c s]; cbn [split]; [discriminate|].
  destruct (Ascii.eqb c sep); [discriminate|].
  destruct (split sep s); discriminate.
Qed.

Lemma split_without sep s : contains sep s = false -> split sep s = [s].
Proof.
  induction s as [|c s IH]; [reflexivity|]. cbn [contains split].
  intros H. apply orb_false_elim in H as [Hc Hs]. rewrite Hc, (IH Hs).
  reflexivity.
Qed.

Lemma split_app sep a e :
  split sep (a ++ String sep e) = (split sep a ++ split sep e)%list.
Proof.
  induction a as [|c a IH].
  - cbn [append split]. now rewrite Ascii.eqb_refl.
  - cbn [append split]. destruct (Ascii.eqb c sep); [now rewrite IH|].
    rewrite IH. destruct (split sep a) as [|hd tl] eqn:E.
    + now apply split_not_nil in E.
    + reflexivity.
Qed.

Lemma last_app_not_nil {A : Type} (l1 l2 : list A) (d : A) :
  l2 <> [] -> last (l1 ++ l2) d = last l2 d.
Proof.
  intros H. induction l1 as [|x l1 IH]; [reflexivity|].
  cbn [app]. destruct (l1 ++ l2)%list eqn:E.
  - apply app_eq_nil in E as [_ E]. contradiction.
  - rewrite <- E in *. cbn [last]. rewrite E. rewrite <- E. exact IH.
Qed.

Lemma last_segment_after_dot base ext :
  contains "."%char ext = false ->
  last (split "."%char (base ++ String "."%char ext)) "" = ext.
Proof.
  intros H. rewrite split_app, last_app_not_nil by apply split_not_nil.
  now rewrite split_without.
Qed.

(** X7: the extension of a path is what [String.prototype.toLowerCase]
    makes of the text after its last dot, whatever that built-in does to
    the letters outside ASCII; the directories and the dots before the last
    one do not matter. *)
Theorem extensionOf_after_last_dot :
  forall (toLowerCase : string -> string) (base ext : string),
    contains "."%char ext = false ->
    ParseWranglerConfig.extensionOf toLowerCase (base ++ String "."%char ext)
    = toLowerCase ext.
Proof.
  intros lower base ext H. unfold ParseWranglerConfig.extensionOf.
  now rewrite last_segment_after_dot.
Qed.

(** X7, on a configuration in a dotted directory, extension in ASCII
    capitals. *)
Lemma extensionOf_after_last_dot_witness :
  ParseWranglerConfig.extensionOf toLowerCaseAscii
    "/work/my.proj/wrangler.JSONC"
  = "jsonc".
Proof.
  exact (extensionOf_after_last_dot toLowerCaseAscii
           "/work/my.proj/wrangler" "JSONC" eq_refl).
Defined.

(** X8: a path without any dot is its own extension, lower-cased by
    [String.prototype.toLowerCase]: a file that is named like a format is
    parsed as that format. *)
Theorem extensionOf_without_dot :
  forall (toLowerCase : string -> string) (filePath : string),
    contains "."%char filePath = false ->
    ParseWranglerConfig.extensionOf toLowerCase filePath
    = toLowerCase filePath.
Proof.
  intros lower s H. unfold ParseWranglerConfig.extensionOf.
  now rewrite split_without.
Qed.

(** X8, on a file named TOML. *)
Lemma extensionOf_without_dot_witness :
  ParseWranglerConfig.extensionOf toLowerCaseAscii "TOML" = "toml".
Proof. exact (extensionOf_without_dot toLowerCaseAscii "TOML" eq_refl). Defined.

(** X9: [parseWranglerConfig] reads the file first and then chooses the
    parser by what [String.prototype.toLowerCase] makes of the text after
    the last dot: TOML, plain JSON, or JSON after the cleaning of
    [parseJsonc]; any other extension is an error that names the lower-cased
    extension.  Every failure, that of the read included, comes back as an
    error that names the path and the cause. *)
Theorem parseWranglerConfig_dispatch :
  forall (any : Type) (readFileSync : string -> Thrown jsstring)
         (parseToml JSON_parse : jsstring -> Thrown any)
         (toLowerCase : string -> string)
         (base ext : string),
    contains "."%char ext = false ->
    let filePath := base ++ String "."%char ext in
    let extension := toLowerCase ext in
    parseWranglerConfig readFileSync parseToml JSON_parse toLowerCase filePath
    = wrapError "Failed to parse wrangler config at " filePath
        match readFileSync filePath with
        | Err e => Err e
        | Ok content =>
            if String.eqb extension "toml" then parseToml content
            else if String.eqb extension "json" then JSON_parse content
            else if String.eqb extension "jsonc"
                 then JSON_parse (ParseWranglerConfig.cleaned content)
                 else Err (JsError ("Unsupported file extension: "
                                    ++ extension))
        end.
Proof.
  intros any0 rf pt jp lower base ext Hext filePath extension.
  unfold parseWranglerConfig, wrapError, ParseWranglerConfig.parseJsonc.
  assert (Hx : ParseWranglerConfig.extensionOf lower filePath = extension).
  { unfold ParseWranglerConfig.extensionOf, filePath.
    now rewrite last_segment_after_dot. }
  cbv zeta. rewrite Hx. reflexivity.
Qed.

(** X9, on a file with the extension of a YAML file. *)
Lemma parseWranglerConfig_dispatch_witness :
  parseWranglerConfig (fun _ => Ok (js "name: app"))
    (fun _ => Ok (WranglerDoc prodApp))
    (fun _ => Ok (WranglerDoc emptyWrangler)) toLowerCaseAscii
    "/work/proj/wrangler.YAML"
  = Err (JsError
           "Failed to parse wrangler config at /work/proj/wrangler.YAML: Unsupported file extension: yaml").
Proof.
  exact (parseWranglerConfig_dispatch Doc (fun _ => Ok (js "name: app"))
           (fun _ => Ok (WranglerDoc prodApp))
           (fun _ => Ok (WranglerDoc emptyWrangler)) toLowerCaseAscii
           "/work/proj/wrangler" "YAML" eq_refl).
Defined.

(** X10: for a path whose extension is ts, js, mts or mjs in any case
    (after [String.prototype.toLowerCase], whatever that built-in does
    outside ASCII), [parseDrizzleConfig] reads no file and calls no parser: the result is
    the default export of the imported module, or the module when there is
    none, and a failed import comes back as an error that names the path
    twice, once for each of the two [catch] blocks. *)
Theorem parseDrizzleConfig_imports_scripts :
  forall (any : Type) (readFileSync : string -> Thrown jsstring)
         (parseToml JSON_parse : jsstring -> Thrown any)
         (toLowerCase : string -> string)
         (href : string -> string)
         (import : string -> Thrown (ModuleNamespace any))
         (base ext : string),
    contains "."%char ext = false ->
    isScriptExtension (toLowerCase ext) = true ->
    let filePath := base ++ String "."%char ext in
    parseDrizzleConfig readFileSync parseToml JSON_parse toLowerCase href
      import filePath
    = match import (href filePath) with
      | Ok module =>
          Ok (match default module with Some d => d | None => whole module end)
      | Err e =>
          Err (JsError ("Failed to parse drizzle config at " ++ filePath
                        ++ ": Failed to import module at " ++ filePath
                        ++ ": " ++ messageOf e))
      end.
Proof.
  intros any0 rf pt jp lower href imp base ext Hext Hscript filePath.
  assert (Hx : ParseDrizzleConfig.extensionOf lower filePath = lower ext).
  { unfold ParseDrizzleConfig.extensionOf, filePath.
    now rewrite last_segment_after_dot. }
  unfold parseDrizzleConfig. cbv zeta. rewrite Hx.
  unfold isScriptExtension in Hscript. rewrite Hscript.
  unfold importModule. destruct (imp (href filePath)); reflexivity.
Qed.

(** X10, on a module that cannot be loaded. *)
Lemma parseDrizzleConfig_imports_scripts_witness :
  parseDrizzleConfig (fun _ => Err (JsError "ENOENT"))
    (fun _ => Ok (DrizzleDoc {| out := None |}))
    (fun _ => Ok (DrizzleDoc {| out := None |}))
    toLowerCaseAscii
    (fun p => "file://" ++ p)
    (fun _ => Err (JsError "Cannot find module"))
    "/work/proj/drizzle.config.TS"
  = Err (JsError
           "Failed to parse drizzle config at /work/proj/drizzle.config.TS: Failed to import module at /work/proj/drizzle.config.TS: Cannot find module").
Proof.
  exact (parseDrizzleConfig_imports_scripts Doc
           (fun _ => Err (JsError "ENOENT"))
           (fun _ => Ok (DrizzleDoc {| out := None |}))
           (fun _ => Ok (DrizzleDoc {| out := None |}))
           toLowerCaseAscii
           (fun p => "file://" ++ p)
           (fun _ => Err (JsError "Cannot find module"))
           "/work/proj/drizzle.config" "TS" eq_refl eq_refl).
Defined.

(** X11: when a configuration cannot be loaded, the script prints one
    console error that names the kind of configuration, the path and the
    cause, and exits with status 1; otherwise it goes on without any
    output. *)
Theorem load_failures_name_the_file :
  forall (h : Host) (filePath : string) (w : World),
    ((exists cfg, loadWranglerConfig h filePath w = (Return cfg, w))
     \/ exists cause,
          loadWranglerConfig h filePath w
          = (Exited 1,
             after w
               [ConsoleError
                  ("Failed to parse wrangler config: "
                   ++ "Failed to parse wrangler config at " ++ filePath
                   ++ ": " ++ cause)]))
    /\ ((exists cfg, loadDrizzleConfig h filePath w = (Return cfg, w))
        \/ exists cause,
             loadDrizzleConfig h filePath w
             = (Exited 1,
                after w
                  [ConsoleError
                     ("Failed to parse drizzle config: "
                      ++ "Failed to parse drizzle config at " ++ filePath
                      ++ ": " ++ cause)])).
Proof.
  intros h p w. split.
  - unfold loadWranglerConfig, parseWranglerConfigTyped, parseWranglerConfig.
    script_simpl.
    match goal with
    | |- context [match ?body with Ok v => Ok v | Err _ => _ end] =>
        destruct body as [v|e]
    end; script_simpl.
    + left. eexists. reflexivity.
    + right. exists (messageOf e). reflexivity.
  - unfold loadDrizzleConfig, parseDrizzleConfigTyped, parseDrizzleConfig.
    script_simpl.
    match goal with
    | |- context [match ?body with Ok v => Ok v | Err _ => _ end] =>
        destruct body as [v|e]
    end; script_simpl.
    + left. eexists. reflexivity.
    + right. exists (messageOf e). reflexivity.
Qed.

(** ** The listing of the migrations folder *)








(** ** Steps of the script *)

Lemma bind_Exited {A B : Type} (c : M A) (k : A -> M B) (w w' : World)
  (code : Z) :
  c w = (Exited code, w') -> bind c k w = (Exited code, w').
Proof. intros H. unfold bind. now rewrite H. Qed.

Lemma find_first {A : Type} (p : A -> bool) (l : list A) (x : A) :
  find p l = Some x ->
  exists pre post,
    l = (pre ++ x :: post)%list
    /\ (forall y, In y pre -> p y = false) /\ p x = true.
Proof.
  induction l as [|y l IH]; [discriminate|]. cbn [find].
  destruct (p y) eqn:Hy.
  - intros [= ->]. exists [], l. repeat split; [intros ? []|exact Hy].
  - intros H. destruct (IH H) as (pre & post & -> & Hpre & Hx).
    exists (y :: pre), post. repeat split; auto.
    intros z [<-|Hz]; auto.
Qed.

(** X13: a path that the locator returns is the working directory joined
    with one of the candidates, and it exists; the locator leaves the file
    system as it is. *)
Theorem locateConfig_returns_existing_candidate :
  forall (h : Host) (kind : string) (candidates : list string)
         (resolvedWorkdir : string) (w : World) (p : string) (w' : World),
    locateConfig h kind candidates resolvedWorkdir w = (Return p, w') ->
    exists c,
      In c candidates /\ p = path_join h resolvedWorkdir c
      /\ existsSync (fs w) p = true /\ fs w' = fs w.
Proof.
  intros h kind candidates wd w p w' H.
  unfold locateConfig in H. script_simpl in H.
  destruct (foundConfigs h (fs w) candidates wd) as [|c rest] eqn:Hfound;
    [discriminate H|].
  assert (Hin : In c (foundConfigs h (fs w) candidates wd))
    by (rewrite Hfound; now left).
  unfold foundConfigs in Hin. apply filter_In in Hin as [Hin Hex].
  exists c. destruct rest as [|c1 rest]; script_simpl in H;
    injection H as <- <-; auto.
Qed.

(** X13, on the directory with [wrangler.json] and [wrangler.jsonc]. *)
Lemma locateConfig_returns_existing_candidate_witness :
  exists c,
    In c wranglerConfigs /\ "/work/proj/wrangler.json" = "/work/proj/" ++ c
    /\ existsSync twoWranglerFs "/work/proj/wrangler.json" = true.
Proof.
  destruct (locateConfig_returns_existing_candidate
              (projectHost prodApp (takePosition 0) keepDefault)
              "wrangler" wranglerConfigs "/work/proj"
              (emptyWorld twoWranglerFs) "/work/proj/wrangler.json"
              (after (emptyWorld twoWranglerFs)
                 [ConsoleWarn
                    "Warning: Multiple wrangler config files found: wrangler.json, wrangler.jsonc";
                  ConsoleLog "Using: wrangler.json"])
              eq_refl)
    as (c & Hin & Hpath & Hexists & _).
  exists c. split; [exact Hin|]. split; [exact Hpath|exact Hexists].
Defined.

(** X14: when the migrations folder does not exist and the user does not ask
    for a new migration, the run ends with status 1 after the confirmation,
    whose wording says that no migrations were located, and the message that
    the folder could not be located; nothing that follows in the script is
    run, so the folder is never listed. *)
Theorem missing_folder_declined_is_fatal :
  forall (h : Host) (resolvedWorkdir : string) (drizzleConfig : DrizzleConfig)
         (w : World) (answer : option bool) (B : Type) (k : unit -> M B),
    existsSync (fs w) (migrationsFolderOf h resolvedWorkdir drizzleConfig)
    = false ->
    prompt_confirm h
      "Want to create a new migration? (Currently we can't locate any migrations)"
      false = Ok answer ->
    answer <> Some true ->
    bind (offerNewMigration h resolvedWorkdir drizzleConfig) k w
    = (Exited 1,
       after w
         [PromptConfirm
            "Want to create a new migration? (Currently we can't locate any migrations)"
            false;
          ConsolaError
            "Migration cancelled: Was not able to locate migrations folder"]).
Proof.
  intros h wd cfg w answer B k Hmissing Hanswer Hno.
  apply bind_Exited.
  unfold offerNewMigration, promptConfirm. script_simpl.
  rewrite Hmissing. cbn [negb append]. rewrite Hanswer.
  cbn [tryCatch error data].
  destruct answer as [[|]|]; [contradiction| |]; script_simpl;
    rewrite Hmissing; cbn [negb]; script_simpl; reflexivity.
Qed.

(** X14, on the project without [drizzle] folder and the user who keeps the
    default. *)
Lemma missing_folder_declined_witness :
  bind (offerNewMigration (projectHost prodApp (takePosition 0) keepDefault)
          "/work/proj" {| out := Some "drizzle" |})
    (fun _ => selectMigration
                (projectHost prodApp (takePosition 0) keepDefault)
                "/work/proj" {| out := Some "drizzle" |})
    (emptyWorld freshFs)
  = (Exited 1,
     after (emptyWorld freshFs)
       [PromptConfirm
          "Want to create a new migration? (Currently we can't locate any migrations)"
          false;
        ConsolaError
          "Migration cancelled: Was not able to locate migrations folder"]).
Proof.
  apply (missing_folder_declined_is_fatal
           (projectHost prodApp (takePosition 0) keepDefault)
           "/work/proj" {| out := Some "drizzle" |} (emptyWorld freshFs)
           (Some false)).
  - reflexivity.
  - reflexivity.
  - discriminate.
Defined.

(** X15: when the user asks for a new migration and [drizzle-kit generate]
    succeeds, the migrations folder is looked up once more, in the file
    system that the command left, and that lookup alone decides: with the
    folder there the script goes on in that file system, and without it the
    run ends with status 1 after the message that the folder could not be
    located, whether or not the folder was there before the generation. *)
Theorem folder_is_required_after_generation :
  forall (h : Host) (resolvedWorkdir : string) (drizzleConfig : DrizzleConfig)
         (w : World) (f' : FileSystem),
    prompt_confirm h
      ("Want to create a new migration?"
       ++ (if negb (existsSync (fs w)
                      (migrationsFolderOf h resolvedWorkdir drizzleConfig))
           then " (Currently we can't locate any migrations)" else ""))
      false = Ok (Some true) ->
    execa h "bunx" ["drizzle-kit"; "generate"] resolvedWorkdir
      (generateStdio h) (fs w) = Ok f' ->
    exists events,
      In (Execa "bunx" ["drizzle-kit"; "generate"] resolvedWorkdir
            (generateStdio h))
         events
      /\ offerNewMigration h resolvedWorkdir drizzleConfig w
         = if existsSync f' (migrationsFolderOf h resolvedWorkdir drizzleConfig)
           then (Return tt, {| fs := f'; trace := (trace w ++ events)%list |})
           else (Exited 1,
                 {| fs := f';
                    trace :=
                      (trace w ++ events
                       ++ [ConsolaError
                             "Migration cancelled: Was not able to locate migrations folder"])%list
                 |}).
Proof.
  intros h wd cfg w f' Hanswer Hexeca.
  unfold offerNewMigration, promptConfirm, createMigration, execaM.
  script_simpl. rewrite Hanswer. cbn [tryCatch error data].
  unfold generateStdio in *.
  destruct (stdin_isTTY h && stdout_isTTY h); script_simpl;
    rewrite Hexeca; script_simpl;
    match goal with
    | |- context [{| fs := f'; trace := (trace w ++ ?events)%list |}] =>
        exists events
    end;
    (split; [cbn [In]; tauto|]);
    destruct (existsSync f' (migrationsFolderOf h wd cfg)); cbn [negb];
    script_simpl; reflexivity.
Qed.

(** X15, on the project without [drizzle] folder: a generation that
    creates the folder, and one that creates nothing. *)
Lemma folder_is_required_after_generation_witness :
  (exists events,
     offerNewMigration generatingHost "/work/proj" {| out := Some "drizzle" |}
       (emptyWorld freshFs)
     = (Return tt, {| fs := projectFs initOnly; trace := events |}))
  /\ exists events,
       offerNewMigration (projectHost prodApp (takePosition 0) sayYes)
         "/work/proj" {| out := Some "drizzle" |} (emptyWorld freshFs)
       = (Exited 1,
          {| fs := freshFs;
             trace :=
               (events
                ++ [ConsolaError
                      "Migration cancelled: Was not able to locate migrations folder"])%list
          |}).
Proof.
  split.
  - destruct (folder_is_required_after_generation generatingHost "/work/proj"
                {| out := Some "drizzle" |} (emptyWorld freshFs)
                (projectFs initOnly) eq_refl eq_refl)
      as (events & _ & Hrun).
    exists events. exact Hrun.
  - destruct (folder_is_required_after_generation
                (projectHost prodApp (takePosition 0) sayYes) "/work/proj"
                {| out := Some "drizzle" |} (emptyWorld freshFs)
                freshFs eq_refl eq_refl)
      as (events & _ & Hrun).
    exists events. exact Hrun.
Defined.

(** X16: when [drizzle-kit generate] fails, the run ends with status 1 after
    the two error messages of the [catch]; nothing that follows in the
    script is run. *)
Theorem failed_generation_is_fatal :
  forall (h : Host) (resolvedWorkdir : string) (drizzleConfig : DrizzleConfig)
         (w : World) (e : Exn) (B : Type) (k : unit -> M B),
    prompt_confirm h
      ("Want to create a new migration?"
       ++ (if negb (existsSync (fs w)
                      (migrationsFolderOf h resolvedWorkdir drizzleConfig))
           then " (Currently we can't locate any migrations)" else ""))
      false = Ok (Some true) ->
    execa h "bunx" ["drizzle-kit"; "generate"] resolvedWorkdir
      (generateStdio h) (fs w) = Err e ->
    exists events,
      bind (offerNewMigration h resolvedWorkdir drizzleConfig) k w
      = (Exited 1,
         after w
           (events
            ++ [Execa "bunx" ["drizzle-kit"; "generate"] resolvedWorkdir
                  (generateStdio h);
                ConsoleError (pc_red h "✗ Failed to create migration");
                ConsolaError "Migration cancelled."])%list).
Proof.
  intros h wd cfg w e B k Hanswer Hexeca.
  unfold generateStdio in *.
  destruct (stdin_isTTY h && stdout_isTTY h) eqn:Htty.
  - eexists [_; _; _]. apply bind_Exited.
    unfold offerNewMigration, promptConfirm, createMigration, execaM.
    script_simpl. rewrite Hanswer. cbn [tryCatch error data].
    rewrite Htty. script_simpl. rewrite Hexeca. script_simpl. reflexivity.
  - eexists [_]. apply bind_Exited.
    unfold offerNewMigration, promptConfirm, createMigration, execaM.
    script_simpl. rewrite Hanswer. cbn [tryCatch error data].
    rewrite Htty. script_simpl. rewrite Hexeca. script_simpl. reflexivity.
Qed.

(** X16, on the host whose external commands fail. *)
Lemma failed_generation_is_fatal_witness :
  exists events,
    bind (offerNewMigration failingHost "/work/proj"
            {| out := Some "drizzle" |})
      (fun _ => selectMigration failingHost "/work/proj"
                  {| out := Some "drizzle" |})
      (emptyWorld freshFs)
    = (Exited 1,
       after (emptyWorld freshFs)
         (events
          ++ [Execa "bunx" ["drizzle-kit"; "generate"] "/work/proj"
                (Some "inherit");
              ConsoleError "✗ Failed to create migration";
              ConsolaError "Migration cancelled."])%list).
Proof.
  exact (failed_generation_is_fatal failingHost "/work/proj"
           {| out := Some "drizzle" |} (emptyWorld freshFs)
           (JsError "exit code 1") string
           (fun _ => selectMigration failingHost "/work/proj"
                       {| out := Some "drizzle" |})
           eq_refl eq_refl).
Defined.

Lemma migrationParams_unfiltered opts db env mig :
  migrationParams opts db env mig
  = (["wrangler"; "d1"; "execute"]
     ++ nonEmpty (match db with Some d => database_name d | None => "" end)
     ++ (if local opts then ["--local"] else [])
     ++ (if remote opts then ["--remote"] else [])
     ++ (match env with
         | Some name => if truthy name then ["--env"; name] else []
         | None => []
         end)
     ++ ["--file"] ++ nonEmpty mig)%list.
Proof.
  unfold migrationParams, nonEmpty, truthyOpt.
  destruct (match db with Some d => database_name d | None => "" end)
    as [|c0 name];
    destruct (local opts), (remote opts), env as [[|c1 e]|], mig as [|c2 m];
    reflexivity.
Qed.

(** X17: the arguments handed to the executor are, in this order, wrangler,
    d1, execute, the database name unless it is empty or no binding was
    selected, [--local] if that flag was passed, [--remote] if that flag was
    passed, [--env] with the environment unless it is empty or absent,
    [--file], and the migration unless it is empty.  The filter drops empty
    arguments only, so that an empty database name shifts the flags into its
    place. *)
Theorem migrationParams_normal_form :
  forall (opts : Options) (selectedDatabase : option D1Database)
         (selectedEnvironment : option string) (selectedMigration : string),
    migrationParams opts selectedDatabase selectedEnvironment
      selectedMigration
    = (["wrangler"; "d1"; "execute"]
       ++ nonEmpty (match selectedDatabase with
                    | Some d => database_name d
                    | None => ""
                    end)
       ++ (if local opts then ["--local"] else [])
       ++ (if remote opts then ["--remote"] else [])
       ++ (match selectedEnvironment with
           | Some name => if truthy name then ["--env"; name] else []
           | None => []
           end)
       ++ ["--file"] ++ nonEmpty selectedMigration)%list.
Proof. intros. apply migrationParams_unfiltered. Qed.

(** X18: the two mode flags do not exclude each other: when both were
    passed, the mode is not asked and both [--local] and [--remote] are
    handed to the executor, side by side. *)
Theorem both_mode_flags_are_forwarded :
  forall (h : Host) (d : option string) (db : option D1Database)
         (env : option string) (mig : string) (w : World),
    let opts := {| local := true; remote := true; dir := d |} in
    promptMode h opts w = (Return tt, w)
    /\ exists front back,
         migrationParams opts db env mig
         = (front ++ "--local" :: "--remote" :: back)%list.
Proof.
  intros h d db env mig w opts. split; [reflexivity|].
  rewrite migrationParams_unfiltered. cbn [local remote opts app].
  exists ("wrangler" :: "d1" :: "execute"
          :: nonEmpty (match db with
                       | Some d => database_name d
                       | None => ""
                       end)).
  eexists. cbn [app]. reflexivity.
Qed.

(** X19: for an environment that is listed in the configuration and has a
    non-empty name, the bindings of the chosen scope are those of the first
    entry of that name in [env]; the top-level bindings play no part. *)
Theorem listed_environment_has_its_scope :
  forall (cfg : WranglerConfig) (key : string),
    truthy key = true ->
    In key (environmentsOf cfg) ->
    exists e scope,
      env cfg = Some e /\ In (key, scope) e
      /\ databasesOf cfg (Some key) = env_d1_databases scope.
Proof.
  intros cfg key Hkey Hin. unfold environmentsOf in Hin.
  destruct (env cfg) as [e|] eqn:He; [|destruct Hin].
  unfold databasesOf. cbn [truthyOpt]. rewrite Hkey, He.
  unfold lookupEnv.
  destruct (find (fun kv => String.eqb (fst kv) key) e) as [[k scope]|] eqn:Hf.
  - apply find_some in Hf as [Hine Hk]. cbn [fst] in Hk.
    apply String.eqb_eq in Hk. subst k.
    exists e, scope. auto.
  - apply in_map_iff in Hin as ([k scope] & Hk & Hine). cbn [fst] in Hk.
    subst k. apply (find_none _ _ Hf) in Hine. cbn [fst] in Hine.
    now rewrite String.eqb_refl in Hine.
Qed.

(** X19, on the environment prod. *)
Lemma listed_environment_has_its_scope_witness :
  exists e scope,
    env prodApp = Some e /\ In ("prod", scope) e
    /\ databasesOf prodApp (Some "prod") = env_d1_databases scope.
Proof.
  apply (listed_environment_has_its_scope prodApp "prod").
  - reflexivity.
  - cbn. tauto.
Defined.

(** X20: a binding that the resolver returns is the first binding of the
    list with its identifier: of several bindings with the same identifier
    only the first can be selected; and when the list has more than one
    binding, a returned binding has a non-empty identifier. *)
Theorem selected_database_is_first_with_its_identifier :
  forall (h : Host) (databases : list D1Database) (w w' : World)
         (db : D1Database),
    selectDatabase h (Some databases) w = (Return (Some db), w') ->
    exists before later,
      databases = (before ++ db :: later)%list
      /\ (forall d, In d before -> database_id d <> database_id db)
      /\ (1 < List.length databases ->
          exists id, database_id db = Some id /\ id <> "").
Proof.
  intros h databases w w' db H.
  destruct databases as [|d0 [|d1 rest]].
  - discriminate H.
  - injection H as <- _. exists [], []. repeat split.
    + intros d [].
    + cbn. lia.
  - unfold selectDatabase, promptSelect in H. script_simpl in H.
    remember (d0 :: d1 :: rest) as dbs eqn:Hdbs.
    destruct (cancelled _) eqn:Hc; [discriminate H|].
    injection H as H _.
    unfold cancelled in Hc. apply orb_false_elim in Hc as [Hc _].
    apply negb_false_iff in Hc.
    destruct (data _) as [chosen|]; [|discriminate Hc].
    apply find_first in H as (before & later & Hsplit & Hbefore & Hdb).
    unfold idIs in Hdb. destruct (database_id db) as [id|] eqn:Hid;
      [|discriminate Hdb].
    apply String.eqb_eq in Hdb. subst id.
    exists before, later. split; [exact Hsplit|]. split.
    + intros d Hd Heq. apply Hbefore in Hd. unfold idIs in Hd.
      rewrite Heq in Hd. now rewrite String.eqb_refl in Hd.
    + intros _. exists chosen. split; [reflexivity|].
      intros ->. discriminate Hc.
Qed.

(** X20, on three bindings of which the second has the identifier of the
    first: the user selects the second entry and gets the first binding. *)
Lemma selected_database_is_first_witness :
  fst (selectDatabase (projectHost emptyWrangler (takePosition 1) keepDefault)
         (Some [appDb; shadowedDb; secondDb])
         (emptyWorld (projectFs initOnly)))
  = Return (Some appDb)
  /\ exists before later,
       [appDb; shadowedDb; secondDb] = (before ++ appDb :: later)%list
       /\ forall d, In d before -> database_id d <> database_id appDb.
Proof.
  split; [reflexivity|].
  destruct (selected_database_is_first_with_its_identifier
              (projectHost emptyWrangler (takePosition 1) keepDefault)
              [appDb; shadowedDb; secondDb]
              (emptyWorld (projectFs initOnly))
              (after (emptyWorld (projectFs initOnly))
                 [PromptSelect "Select a database to migrate to:"
                    (dbChoices [appDb; shadowedDb; secondDb])
                    (Some "local")])
              appDb eq_refl)
    as (before & later & Hsplit & Hbefore & _).
  exists before, later. split; [exact Hsplit|exact Hbefore].
Defined.

(** ** Sorting *)

Lemma insertSorted_head (x : MigrationFile) (l : list MigrationFile) :
  Forall (fun y => (mtime y <= mtime x)%Z) l ->
  insertSorted byMtime x l = x :: l.
Proof.
  intros H. destruct l as [|y l]; [reflexivity|]. cbn [insertSorted].
  inversion H as [|? ? Hy _]; subst. unfold byMtime.
  destruct (Z.leb_spec (mtime y - mtime x) 0); [reflexivity|lia].
Qed.

(** X21: a list of migrations that is already ordered, later ones first, is
    left as it is by the sort, ties included. *)
Theorem sortByMtime_keeps_sorted_list :
  forall l : list MigrationFile,
    StronglySorted notOlder l -> sortByMtime l = l.
Proof.
  induction 1 as [|x l Hl IH Hx]; [reflexivity|].
  change (sortByMtime (x :: l)) with (insertSorted byMtime x (sortByMtime l)).
  rewrite IH. now apply insertSorted_head.
Qed.

(** X21, on two migrations. *)
Lemma sortByMtime_keeps_sorted_list_witness :
  sortByMtime laterFirst = laterFirst.
Proof.
  apply (sortByMtime_keeps_sorted_list laterFirst).
  repeat constructor. unfold notOlder. cbn. lia.
Defined.

(** ** The run as a whole *)

Lemma lastIsError_app (l1 l2 : list Event) :
  lastIsError l2 = true -> lastIsError (l1 ++ l2) = true.
Proof.
  unfold lastIsError. rewrite rev_app_distr.
  destruct (rev l2) as [|e l]; [discriminate|]. now cbn [app].
Qed.

Lemma lastIsError_spec (evs : list Event) :
  lastIsError evs = true ->
  exists before e, evs = (before ++ [e])%list /\ isErrorEvent e = true.
Proof.
  unfold lastIsError. destruct (rev evs) as [|e l] eqn:Hrev; [discriminate|].
  intros He. exists (rev l), e. split; [|exact He].
  rewrite <- (rev_involutive evs), Hrev. reflexivity.
Qed.

Lemma executeInvocations_app (l1 l2 : list Event) :
  executeInvocations (l1 ++ l2)
  = (executeInvocations l1 ++ executeInvocations l2)%list.
Proof. apply filter_app. Qed.

Lemma PhaseAt_bind {A B : Type} (c : M A) (k : A -> M B) (w : World) :
  PhaseAt c w ->
  (forall a w', c w = (Return a, w') -> PhaseAt (k a) w') ->
  PhaseAt (bind c k) w.
Proof.
  intros (evs1 & Ht1 & Hx1 & Ha1) Hk. unfold PhaseAt, bind.
  destruct (c w) as [[a|code|e] w'] eqn:Hc; cbn [fst snd] in *.
  - destruct (Hk a w' eq_refl) as (evs2 & Ht2 & Hx2 & Ha2).
    exists (evs1 ++ evs2)%list. split; [|split].
    + rewrite Ht2, Ht1. now rewrite app_assoc.
    + now rewrite executeInvocations_app, Hx1, Hx2.
    + destruct (fst (k a w')); cbn [accounted] in *; auto.
      destruct Ha2 as [-> Ha2]. split; [reflexivity|].
      now apply lastIsError_app.
  - exists evs1. auto.
  - exists evs1. auto.
Qed.

Lemma Phase_resolveWorkdir h opts : Phase (resolveWorkdir h opts).
Proof.
  intros w. unfold PhaseAt, resolveWorkdir.
  destruct (dir opts) as [d|]; [destruct (truthy d)|]; try phase_leaf.
  script_simpl. destruct (existsSync (fs w) _); cbn [negb]; phase_leaf.
Qed.

Lemma Phase_promptMode h opts : Phase (promptMode h opts).
Proof.
  intros w. unfold PhaseAt, promptMode, promptSelect.
  destruct (negb (local opts) && negb (remote opts)); [|phase_leaf].
  script_simpl. destruct (cancelled _); phase_leaf.
Qed.

Lemma Phase_locateConfig h kind candidates wd :
  Phase (locateConfig h kind candidates wd).
Proof.
  intros w. unfold PhaseAt, locateConfig. script_simpl.
  destruct (foundConfigs h (fs w) candidates wd) as [|c0 [|c1 rest]];
    phase_leaf.
Qed.

Lemma Phase_loadWranglerConfig h p : Phase (loadWranglerConfig h p).
Proof.
  intros w. unfold PhaseAt, loadWranglerConfig. script_simpl.
  destruct (parseWranglerConfigTyped _ _ _ _ _); phase_leaf.
Qed.

Lemma Phase_loadDrizzleConfig h p : Phase (loadDrizzleConfig h p).
Proof.
  intros w. unfold PhaseAt, loadDrizzleConfig. script_simpl.
  destruct (parseDrizzleConfigTyped _ _ _ _ _ _ _); phase_leaf.
Qed.

Lemma Phase_selectEnvironment h cfg : Phase (selectEnvironment h cfg).
Proof.
  intros w. unfold PhaseAt, selectEnvironment, promptSelect.
  destruct (Nat.eqb _ 1); [phase_leaf|].
  script_simpl. destruct (cancelled _); phase_leaf.
Qed.

Lemma Phase_selectDatabase h dbs : Phase (selectDatabase h dbs).
Proof.
  intros w. unfold PhaseAt, selectDatabase, promptSelect.
  destruct dbs as [[|d0 [|d1 dbs]]|].
  - phase_leaf.
  - phase_leaf.
  - script_simpl. destruct (cancelled _); phase_leaf.
  - script_simpl. exists []. rewrite app_nil_r.
    split; [reflexivity|]. split; [reflexivity|]. now left.
Qed.

Lemma Phase_createMigration h wd : Phase (createMigration h wd).
Proof.
  intros w. unfold PhaseAt, createMigration, execaM.
  destruct (stdin_isTTY h && stdout_isTTY h); script_simpl;
    destruct (execa h _ _ _ _ _); phase_leaf.
Qed.

Lemma Phase_offerNewMigration h wd cfg : Phase (offerNewMigration h wd cfg).
Proof.
  intros w. unfold offerNewMigration.
  apply PhaseAt_bind; [phase_leaf|]. intros f w1 _.
  apply PhaseAt_bind; [unfold PhaseAt, promptConfirm; phase_leaf|].
  intros r w2 _.
  destruct (error r); [unfold PhaseAt; phase_leaf|].
  apply PhaseAt_bind.
  - destruct (data r) as [[|]|]; try (unfold PhaseAt; phase_leaf).
    apply Phase_createMigration.
  - intros _ w3 _. apply PhaseAt_bind; [unfold PhaseAt; phase_leaf|].
    intros f3 w4 _. destruct (negb _); unfold PhaseAt; phase_leaf.
Qed.

Lemma mapThrown_Err {A B : Type} (f : A -> Thrown B) (l : list A) (e : Exn) :
  mapThrown f l = Err e -> exists x, In x l /\ f x = Err e.
Proof.
  induction l as [|x l IH]; [discriminate|]. cbn [mapThrown].
  destruct (f x) as [y|e'] eqn:Hx.
  - destruct (mapThrown f l) as [ys|e'']; [discriminate|].
    intros [= ->]. destruct (IH eq_refl) as (x' & Hin & Hx').
    exists x'. split; [now right|exact Hx'].
  - intros [= ->]. exists x. split; [now left|exact Hx].
Qed.

Lemma Phase_selectMigration h wd cfg : Phase (selectMigration h wd cfg).
Proof.
  intros w. unfold PhaseAt, selectMigration, promptSelect. script_simpl.
  destruct (readdirSync (fs w) _) as [allFiles|e] eqn:Hdir.
  - destruct (Nat.eqb _ 0); [phase_leaf|].
    destruct (mapThrown _ _) as [stats|e] eqn:Hstats.
    + script_simpl. destruct (cancelled _); phase_leaf.
    + script_simpl. exists []. rewrite app_nil_r.
      split; [reflexivity|]. split; [reflexivity|].
      right. right. apply mapThrown_Err in Hstats as (file & _ & Hfile).
      unfold withStats in Hfile.
      destruct (statSync (fs w) _) eqn:Hstat; [discriminate|].
      injection Hfile as <-. eexists. exact Hstat.
  - script_simpl. exists []. rewrite app_nil_r.
    split; [reflexivity|]. split; [reflexivity|].
    right. left. eexists. exact Hdir.
Qed.

Lemma FinaleAt_bind {A : Type} (c : M A) (k : A -> M unit) (w : World) :
  PhaseAt c w ->
  (forall a w', c w = (Return a, w') -> FinaleAt (k a) w') ->
  FinaleAt (bind c k) w.
Proof.
  intros (evs1 & Ht1 & Hx1 & Ha1) Hk. unfold FinaleAt, bind.
  destruct (c w) as [[a|code|e] w'] eqn:Hc; cbn [fst snd] in *.
  - destruct (Hk a w' eq_refl) as (evs2 & Ht2 & Ha2 & Hx2 & Hr2).
    exists (evs1 ++ evs2)%list. split; [|split; [|split]].
    + rewrite Ht2, Ht1. now rewrite app_assoc.
    + destruct (fst (k a w')); cbn [accounted] in *; auto.
      destruct Ha2 as [-> Ha2]. split; [reflexivity|].
      now apply lastIsError_app.
    + now rewrite executeInvocations_app, Hx1.
    + intros Hret. destruct (Hr2 Hret) as (pre & args & cwd & -> & Hpre & Hex).
      exists (evs1 ++ pre)%list, args, cwd. split; [now rewrite app_assoc|].
      split; [|exact Hex]. now rewrite executeInvocations_app, Hx1, Hpre.
  - exists evs1. rewrite Hx1. split; [exact Ht1|]. split; [exact Ha1|].
    split; [cbn; lia|discriminate].
  - exists evs1. rewrite Hx1. split; [exact Ht1|]. split; [exact Ha1|].
    split; [cbn; lia|discriminate].
Qed.

Lemma migrationParams_head opts db env mig :
  exists more,
    migrationParams opts db env mig = "wrangler" :: "d1" :: "execute" :: more.
Proof.
  unfold migrationParams.
  cbn [app filter String.eqb Ascii.eqb Bool.eqb negb].
  eexists. reflexivity.
Qed.

Lemma Finale_executeMigration h opts wd db env mig w :
  FinaleAt (executeMigration h opts wd db env mig) w.
Proof.
  destruct (migrationParams_head opts db env mig) as [more Hparams].
  assert (Hex : forall cwd stdio,
             isExecute (Execa "bunx" (migrationParams opts db env mig)
                          cwd stdio) = true)
    by (intros; rewrite Hparams; reflexivity).
  unfold FinaleAt, executeMigration, execaM. script_simpl.
  destruct (execa h _ _ _ _ _); script_simpl.
  - eexists. split; [reflexivity|]. split; [exact I|].
    cbn [executeInvocations filter isExecute].
    fold (isExecute (Execa "bunx" (migrationParams opts db env mig) wd None)).
    rewrite Hex. split; [cbn; lia|].
    intros _.
    exists [SpinnerStart "Starting migration"],
           (migrationParams opts db env mig), wd.
    split; [reflexivity|]. split; [reflexivity|]. exact (Hex wd None).
  - eexists. split; [reflexivity|]. split.
    + split; reflexivity.
    + cbn [executeInvocations filter isExecute].
      fold (isExecute (Execa "bunx" (migrationParams opts db env mig) wd None)).
      rewrite Hex. split; [cbn; lia|]. discriminate.
Qed.

Lemma Finale_script h opts w : FinaleAt (script h opts) w.
Proof.
  unfold script.
  apply FinaleAt_bind; [apply Phase_resolveWorkdir|]. intros wd w1 _.
  apply FinaleAt_bind; [apply Phase_promptMode|]. intros _ w2 _.
  apply FinaleAt_bind; [apply Phase_locateConfig|]. intros cp w3 _.
  apply FinaleAt_bind; [apply Phase_loadWranglerConfig|]. intros wc w4 _.
  apply FinaleAt_bind; [apply Phase_locateConfig|]. intros dp w5 _.
  apply FinaleAt_bind; [apply Phase_loadDrizzleConfig|]. intros dc w6 _.
  apply FinaleAt_bind; [apply Phase_selectEnvironment|]. intros env w7 _.
  apply FinaleAt_bind; [apply Phase_selectDatabase|]. intros db w8 _.
  apply FinaleAt_bind; [apply Phase_offerNewMigration|]. intros _ w9 _.
  apply FinaleAt_bind; [apply Phase_selectMigration|]. intros mig w10 _.
  apply Finale_executeMigration.
Qed.

Lemma run_fst h opts f :
  fst (run h opts f) = fst (script h opts {| fs := f; trace := [] |}).
Proof. unfold run. now destruct (script _ _ _). Qed.

Lemma run_snd h opts f :
  snd (run h opts f) = trace (snd (script h opts {| fs := f; trace := [] |})).
Proof. unfold run. now destruct (script _ _ _). Qed.

(** X22: whenever a run ends by [process.exit], the status is 1 and the last
    thing the run did before was to print an error message, with
    [console.error] or [consola.error]: no run exits silently, whatever the
    configuration, the file system and the answers are. *)
Theorem run_exits_with_1_after_error :
  forall (h : Host) (opts : Options) (f : FileSystem) (code : Z),
    fst (run h opts f) = Exited code ->
    code = 1%Z
    /\ exists before e,
         snd (run h opts f) = (before ++ [e])%list /\ isErrorEvent e = true.
Proof.
  intros h opts f code H. rewrite run_fst in H. rewrite run_snd.
  destruct (Finale_script h opts {| fs := f; trace := [] |})
    as (evs & Ht & Ha & _). rewrite H in Ha. cbn [accounted] in Ha.
  destruct Ha as [-> Ha]. split; [reflexivity|].
  rewrite Ht. cbn [trace app]. now apply lastIsError_spec.
Qed.

(** X22, on the configuration without environments, where the run is
    cancelled at the environment prompt. *)
Lemma run_exits_with_1_after_error_witness :
  exists before e,
    snd (run (projectHost (topLevelOnly [appDb]) (takePosition 0) keepDefault)
           remoteInProj (projectFs initOnly))
    = (before ++ [e])%list
    /\ isErrorEvent e = true.
Proof.
  apply (run_exits_with_1_after_error
           (projectHost (topLevelOnly [appDb]) (takePosition 0) keepDefault)
           remoteInProj (projectFs initOnly) 1%Z).
  reflexivity.
Defined.

(** X23: no run hands more than one command to the external execute
    capability, and a run that ends with status 0 has handed over exactly
    one, as its last action before the success message. *)
Theorem run_executes_at_most_once :
  forall (h : Host) (opts : Options) (f : FileSystem),
    List.length (executeInvocations (snd (run h opts f))) <= 1
    /\ (fst (run h opts f) = Return tt ->
        exists before args cwd,
          snd (run h opts f)
          = (before ++ [Execa "bunx" args cwd None;
                        SpinnerSuccess "Successfully migrated!"])%list
          /\ executeInvocations before = []
          /\ isExecute (Execa "bunx" args cwd None) = true).
Proof.
  intros h opts f. rewrite run_fst, run_snd.
  destruct (Finale_script h opts {| fs := f; trace := [] |})
    as (evs & Ht & _ & Hx & Hr). rewrite Ht. cbn [trace app].
  split; [exact Hx|exact Hr].
Qed.

(** X23, on the end-to-end project and the user who takes every default. *)
Lemma run_executes_at_most_once_witness :
  exists before args cwd,
    snd (run (projectHost prodApp (takeInitialWithMode "local") keepDefault)
           remoteInProj (projectFs initOnly))
    = (before ++ [Execa "bunx" args cwd None;
                  SpinnerSuccess "Successfully migrated!"])%list
    /\ executeInvocations before = []
    /\ isExecute (Execa "bunx" args cwd None) = true.
Proof.
  apply (run_executes_at_most_once
           (projectHost prodApp (takeInitialWithMode "local") keepDefault)
           remoteInProj (projectFs initOnly)).
  reflexivity.
Defined.



Lemma executeInvocations_middle (before later : list Event) (e : Event) :
  isExecute e = true -> executeInvocations (before ++ e :: later) <> [].
Proof.
  intros He. rewrite executeInvocations_app. unfold executeInvocations at 2.
  cbn [filter]. rewrite He. intros H. apply app_eq_nil in H as [_ H].
  discriminate H.
Qed.

Lemma split_behind_phase (evs1 evs2 before later : list Event) (e : Event) :
  executeInvocations evs1 = [] ->
  isExecute e = true ->
  (evs1 ++ evs2 = before ++ e :: later)%list ->
  exists before2,
    before = (evs1 ++ before2)%list /\ evs2 = (before2 ++ e :: later)%list.
Proof.
  intros Hnone He. revert before.
  induction evs1 as [|x evs1 IH]; intros before Heq.
  - exists before. split; [reflexivity|exact Heq].
  - unfold executeInvocations in Hnone. cbn [filter] in Hnone.
    destruct (isExecute x) eqn:Hx; [discriminate Hnone|].
    destruct before as [|y before]; cbn [app] in Heq.
    + injection Heq as -> _. rewrite He in Hx. discriminate Hx.
    + injection Heq as -> Heq.
      destruct (IH Hnone before Heq) as (before2 & -> & ->).
      exists before2. split; reflexivity.
Qed.

Lemma AsksAt_bind {A B : Type} (c : M A) (k : A -> M B) (w : World) :
  PhaseAt c w ->
  (forall a w', c w = (Return a, w') -> AsksAt (k a) w') ->
  AsksAt (bind c k) w.
Proof.
  intros (evs1 & Ht1 & Hx1 & _) Hk. unfold AsksAt, bind.
  destruct (c w) as [[a|code|e] w'] eqn:Hc; cbn [fst snd] in *.
  - destruct (Hk a w' eq_refl) as (evs2 & Ht2 & Hask).
    exists (evs1 ++ evs2)%list. split.
    + rewrite Ht2, Ht1. now rewrite app_assoc.
    + intros before e later Heq He.
      destruct (split_behind_phase evs1 evs2 before later e Hx1 He Heq)
        as (before2 & -> & Heq2).
      destruct (Hask before2 e later Heq2 He) as (message & Htext & Hin).
      exists message. split; [exact Htext|]. apply in_or_app. now right.
  - exists evs1. split; [exact Ht1|]. intros before e0 later Heq He.
    exfalso. apply (executeInvocations_middle before later e0 He).
    now rewrite <- Heq.
  - exists evs1. split; [exact Ht1|]. intros before e0 later Heq He.
    exfalso. apply (executeInvocations_middle before later e0 He).
    now rewrite <- Heq.
Qed.

Lemma offerNewMigration_asks h wd cfg w :
  exists message evs,
    (message = "Want to create a new migration?"
     \/ message
        = "Want to create a new migration? (Currently we can't locate any migrations)")
    /\ trace (snd (offerNewMigration h wd cfg w))
       = (trace w ++ PromptConfirm message false :: evs)%list.
Proof.
  exists ("Want to create a new migration?"
          ++ (if negb (existsSync (fs w) (migrationsFolderOf h wd cfg))
              then " (Currently we can't locate any migrations)"
              else "")).
  assert (Htext :
            forall found : bool,
              "Want to create a new migration?"
              ++ (if negb found
                  then " (Currently we can't locate any migrations)"
                  else "")
              = "Want to create a new migration?"
              \/ "Want to create a new migration?"
                 ++ (if negb found
                     then " (Currently we can't locate any migrations)"
                     else "")
                 = "Want to create a new migration? (Currently we can't locate any migrations)").
  { intros [|]; [left|right]; reflexivity. }
  unfold offerNewMigration, promptConfirm, createMigration, execaM.
  script_simpl.
  destruct (prompt_confirm h _ false) as [[[|]|]|e];
    cbn [tryCatch error data]; script_simpl.
  all: repeat match goal with
         | |- context [if ?b then _ else _] => destruct b; script_simpl
         | |- context [match execa ?a ?b ?c ?d ?e ?f with _ => _ end] =>
             destruct (execa a b c d e f); script_simpl
         end.
  all: eexists;
    (split;
     [first [left; reflexivity | right; reflexivity | apply Htext]
     |reflexivity]).
Qed.

Lemma AsksAt_tail h opts wd cfg db env w :
  AsksAt (bind (offerNewMigration h wd cfg)
            (fun _ =>
               bind (selectMigration h wd cfg)
                 (fun mig => executeMigration h opts wd db env mig))) w.
Proof.
  destruct (offerNewMigration_asks h wd cfg w)
    as (message & evs1 & Htext & Ht1).
  assert (Hfirst :
            forall evs before e later,
              (PromptConfirm message false :: evs = before ++ e :: later)%list ->
              isExecute e = true ->
              exists message0,
                (message0 = "Want to create a new migration?"
                 \/ message0
                    = "Want to create a new migration? (Currently we can't locate any migrations)")
                /\ In (PromptConfirm message0 false) before).
  { intros evs before e later Heq He. destruct before as [|x before].
    - injection Heq as <- _. discriminate He.
    - injection Heq as <- _. exists message. split; [exact Htext|now left]. }
  unfold AsksAt, bind at 1.
  destruct (offerNewMigration h wd cfg w) as [[[]|code|e] w9];
    cbn [fst snd] in *.
  - destruct (FinaleAt_bind (selectMigration h wd cfg)
                (fun mig => executeMigration h opts wd db env mig) w9
                (Phase_selectMigration h wd cfg w9)
                (fun mig w' _ =>
                   Finale_executeMigration h opts wd db env mig w'))
      as (evs2 & Ht2 & _).
    exists (PromptConfirm message false :: evs1 ++ evs2)%list. split.
    + rewrite Ht2, Ht1. rewrite <- app_assoc. reflexivity.
    + apply Hfirst.
  - exists (PromptConfirm message false :: evs1). split; [exact Ht1|].
    apply Hfirst.
  - exists (PromptConfirm message false :: evs1). split; [exact Ht1|].
    apply Hfirst.
Qed.

(** X25: no run hands a command to the external execute capability without
    having asked the user before whether a new migration is wanted: in the
    trace of every run, every execute invocation stands behind a
    confirmation prompt with the text of that question, with or without the
    remark that no migrations could be located, whatever the flags and the
    configuration are. *)
Theorem no_execution_without_confirmation :
  forall (h : Host) (opts : Options) (f : FileSystem)
         (before later : list Event) (e : Event),
    snd (run h opts f) = (before ++ e :: later)%list ->
    isExecute e = true ->
    exists message,
      (message = "Want to create a new migration?"
       \/ message
          = "Want to create a new migration? (Currently we can't locate any migrations)")
      /\ In (PromptConfirm message false) before.
Proof.
  intros h opts f before later e. rewrite run_snd.
  assert (H : AsksAt (script h opts) {| fs := f; trace := [] |}).
  { unfold script.
    apply AsksAt_bind; [apply Phase_resolveWorkdir|]. intros wd w1 _.
    apply AsksAt_bind; [apply Phase_promptMode|]. intros _ w2 _.
    apply AsksAt_bind; [apply Phase_locateConfig|]. intros cp w3 _.
    apply AsksAt_bind; [apply Phase_loadWranglerConfig|]. intros wc w4 _.
    apply AsksAt_bind; [apply Phase_locateConfig|]. intros dp w5 _.
    apply AsksAt_bind; [apply Phase_loadDrizzleConfig|]. intros dc w6 _.
    apply AsksAt_bind; [apply Phase_selectEnvironment|]. intros env w7 _.
    apply AsksAt_bind; [apply Phase_selectDatabase|]. intros db w8 _.
    apply AsksAt_tail. }
  destruct H as (evs & Ht & Hask). rewrite Ht. apply Hask.
Qed.

(** X25, on the run whose migrations folder holds no migration. *)
Lemma no_execution_without_confirmation_witness :
  exists message,
    (message = "Want to create a new migration?"
     \/ message
        = "Want to create a new migration? (Currently we can't locate any migrations)")
    /\ In (PromptConfirm message false)
         [PromptConfirm "Want to create a new migration?" false;
          ConsolaWarn "No SQL migration files found in the migrations folder.";
          SpinnerStart "Starting migration"].
Proof.
  apply (no_execution_without_confirmation
           (projectHost prodApp (takePosition 0) keepDefault)
           remoteInProj (projectFs noSqlFolder)
           [PromptConfirm "Want to create a new migration?" false;
            ConsolaWarn "No SQL migration files found in the migrations folder.";
            SpinnerStart "Starting migration"]
           [SpinnerSuccess "Successfully migrated!"]
           (Execa "bunx"
              ["wrangler"; "d1"; "execute"; "app"; "--remote"; "--env"; "prod";
               "--file"]
              "/work/proj" None)); reflexivity.
Defined.
